(** * topik: the result layer of a topic-modelling toolkit

    A shallow embedding of [topik/models/base_model_output.py]: the class
    [TopicModelResultBase] (top words per topic, term frequencies, document
    lengths, the pyLDAvis payload, save) and the function [load_model].

    Conventions of the embedding.
    - A Python call that may raise is a value of [result]: [Ok v] or
      [Raise e], and statements are sequenced with the bind of that monad.
    - Weights are the cells of a numeric matrix.  Only their order matters
      to the code below, so they are integers here; a NaN cell, for which
      the order of floats stops being total, is outside the model.
    - The module uses the names [np] and [Persistor] without importing
      them.  They are read as numpy and as the toolkit's persistor class.
      numpy enters through the class [Numpy], which carries the documented
      contract of [argpartition] and [argsort] and nothing else. *)

From Stdlib Require Import ZArith.
From stdpp Require Import base option list sorting gmap strings fin_maps.

Local Open Scope Z_scope.

(** ** Exceptions and results *)

Inductive exn : Type :=
  | ValueError
  | KeyError
  | IndexError
  | AttributeError
  | NotImplementedError
  | NameError (msg : string).

Inductive result (A : Type) : Type :=
  | Ok (a : A)
  | Raise (e : exn).
Arguments Ok {A} a.
Arguments Raise {A} e.

#[global] Instance result_ret : MRet result := fun _ a => Ok a.
#[global] Instance result_bind : MBind result := fun _ _ f m =>
  match m with
  | Ok a => f a
  | Raise e => Raise e
  end.

(** [o] if it is there, the exception [e] otherwise. *)
Definition or_raise {A} (e : exn) (o : option A) : result A :=
  match o with
  | Some a => Ok a
  | None => Raise e
  end.

(** A list comprehension whose body may raise: the first exception ends it. *)
Fixpoint for_each {A B} (f : A → result B) (l : list A) : result (list B) :=
  match l with
  | [] => Ok []
  | x :: l' => y ← f x; ys ← for_each f l'; Ok (y :: ys)
  end.

(** ** Sequences *)

(** [l[start:]] for a Python sequence: a negative [start] counts from the
    end, and the bound is clamped into the sequence. *)
Definition slice_from {A} (l : list A) (start : Z) : list A :=
  let n := Z.of_nat (length l) in
  let s := if start <? 0 then Z.max 0 (start + n) else Z.min start n in
  drop (Z.to_nat s) l.

(** [a[ids]] for an array indexed by an array of positions. *)
Definition take_ids {A} (a : list A) (ids : list nat) : result (list A) :=
  for_each (fun i => or_raise IndexError (a !! i)) ids.

(** ** numpy *)

(** The position meant by [kth] in an array of length [n]. *)
Definition norm_kth (n : nat) (kth : Z) : nat :=
  Z.to_nat (if kth <? 0 then kth + Z.of_nat n else kth).

Definition kth_in_bounds (n : nat) (kth : Z) : Prop :=
  - Z.of_nat n ≤ kth < Z.of_nat n.

#[global] Instance kth_in_bounds_dec n kth : Decision (kth_in_bounds n kth).
Proof. unfold kth_in_bounds. apply _. Defined.

(** A [kth] that the index type of numpy holds on every platform. *)
Definition kth_fits (kth : Z) : Prop := - 2 ^ 31 ≤ kth < 2 ^ 31.

#[global] Instance kth_fits_dec kth : Decision (kth_fits kth).
Proof. unfold kth_fits. apply _. Defined.

(** What numpy documents of the two routines [get_top_words] calls, and
    what it does on an array without cells.
    - [argpartition a kth] on an array with a cell raises [ValueError] for
      a [kth] out of bounds.  In bounds it returns the positions of [a] in
      an order where the position at place [kth] is the one a full sort
      would put there, no larger cell stands before it and no smaller cell
      behind it.  The order inside the two parts is not specified.
    - [argpartition] does not check [kth] on an array without cells: it
      returns the array without positions.
    - Whatever [argpartition] returns is a rearrangement of the positions
      of [a].  Nothing is said of a [kth] the index type cannot hold.
    - [argsort a] returns the positions of [a] in ascending order of their
      cells.  The order of equal cells is not specified. *)
Class Numpy := {
  argpartition : list Z → Z → result (list nat);
  argsort : list Z → list nat;
  argpartition_out_of_bounds a kth :
    a ≠ [] → kth_fits kth → ¬ kth_in_bounds (length a) kth →
    argpartition a kth = Raise ValueError;
  argpartition_empty kth :
    kth_fits kth → argpartition [] kth = Ok [];
  argpartition_in_bounds a kth :
    kth_in_bounds (length a) kth →
    ∃ p, argpartition a kth = Ok p ∧
         p ≡ₚ seq 0 (length a) ∧
         let k := norm_kth (length a) kth in
         Forall (fun i => a !!! i ≤ a !!! (p !!! k)) (take k p) ∧
         Forall (fun j => a !!! (p !!! k) ≤ a !!! j) (drop k p);
  argpartition_positions a kth p :
    argpartition a kth = Ok p → p ≡ₚ seq 0 (length a);
  argsort_perm a : argsort a ≡ₚ seq 0 (length a);
  argsort_sorted a : Sorted Z.le ((fun i => a !!! i) <$> argsort a)
}.

(** ** pandas

    Of a [DataFrame] the code uses the row labels, the labelled columns in
    their order, column assignment, column selection, dropping the last
    columns by position, and transposition.  A column assigned from a
    [Series] is aligned on the row labels; a row the [Series] does not
    have gets [NaN].  A table without rows takes its row labels from the
    first [Series] with rows assigned to it. *)

Inductive label : Type :=
  | IntLabel (n : nat)
  | StrLabel (s : string).

#[global] Instance label_eq_dec : EqDecision label.
Proof. solve_decision. Defined.

Inductive cell : Type :=
  | Num (z : Z)
  | Str (s : string)
  | NaN.

Record DataFrame (R C : Type) := {
  df_index : list R;
  df_columns : list (C * list cell)
}.
Arguments df_index {R C} _.
Arguments df_columns {R C} _.

Definition shape {R C} (df : DataFrame R C) : nat * nat :=
  (length (df_index df), length (df_columns df)).

(** [df[c] = col]: an existing column is replaced where it stands, a new
    one is added behind the others. *)
Definition df_setitem {R C} `{EqDecision C} (df : DataFrame R C) (c : C)
    (col : list cell) : DataFrame R C :=
  if decide (c ∈ (df_columns df).*1) then
    {| df_index := df_index df;
       df_columns := (fun '(c', old) => if decide (c' = c) then (c', col) else (c', old))
                       <$> df_columns df |}
  else
    {| df_index := df_index df; df_columns := df_columns df ++ [(c, col)] |}.

(** The columns of a table with [n] new rows that had none: all [NaN]. *)
Definition nan_columns {C} (n : nat) (cols : list (C * list cell)) : list (C * list cell) :=
  (fun col => (col.1, replicate n NaN)) <$> cols.

(** Before a [Series] is assigned, a table without rows takes the labels
    of a [Series] that has some, and the columns it had are filled with
    [NaN]. *)
Definition ensure_valid_index {R C} (df : DataFrame R C) (labels : list R)
    : DataFrame R C :=
  match df_index df, labels with
  | [], _ :: _ =>
      {| df_index := labels;
         df_columns := nan_columns (length labels) (df_columns df) |}
  | _, _ => df
  end.

(** The labels of a [Series] built from a dict.  Their order is the order
    of the dict, which is not modelled: here they come in the order of the
    finite map.  It shows only where a table without rows takes them. *)
Definition dict_labels {R V} `{Countable R} (s : gmap R V) : list R :=
  (map_to_list s).*1.

(** A [Series] built from a dict, aligned on [index]. *)
Definition align_dict {R} `{Countable R} (index : list R) (s : gmap R cell) : list cell :=
  (fun r => default NaN (s !! r)) <$> index.

(** A [Series] given by its rows, aligned on [index]: taken as it is when
    its labels are the index, looked up by label when its labels are
    distinct, refused otherwise. *)
Definition align_rows {R} `{Countable R} (index : list R) (s : list (R * cell))
    : result (list cell) :=
  if decide (s.*1 = index) then Ok (s.*2)
  else if decide (NoDup (s.*1)) then
    Ok ((fun r => default NaN ((list_to_map s : gmap R cell) !! r)) <$> index)
  else Raise ValueError.

(** [df[c] = series] for a [Series] built from a dict. *)
Definition df_setitem_dict {R C} `{Countable R} `{EqDecision C} (df : DataFrame R C)
    (c : C) (s : gmap R cell) : DataFrame R C :=
  let df := ensure_valid_index df (dict_labels s) in
  df_setitem df c (align_dict (df_index df) s).

(** [df[c] = series] for a [Series] given by its rows. *)
Definition df_setitem_rows {R C} `{Countable R} `{EqDecision C} (df : DataFrame R C)
    (c : C) (s : list (R * cell)) : result (DataFrame R C) :=
  let df := ensure_valid_index df (s.*1) in
  col ← align_rows (df_index df) s;
  Ok (df_setitem df c col).

(** [df[c]]: the column as a [Series] over the row labels. *)
Definition df_getitem {R C} `{EqDecision C} (df : DataFrame R C) (c : C)
    : result (list (R * cell)) :=
  col ← or_raise KeyError (list_find (fun kv => kv.1 = c) (df_columns df));
  Ok (zip (df_index df) (col.2).2).

(** [df.iloc[:, :-k]] for a positive [k]. *)
Definition iloc_drop_last {R C} (k : nat) (df : DataFrame R C) : DataFrame R C :=
  {| df_index := df_index df;
     df_columns := take (length (df_columns df) - k) (df_columns df) |}.

(** [df.T]: the column labels become the row labels, and each row becomes
    a column. *)
Definition df_T {R C} (df : DataFrame R C) : DataFrame C R :=
  {| df_index := (df_columns df).*1;
     df_columns := imap (fun i r => (r, (fun col => default NaN (col.2 !! i)) <$> df_columns df))
                        (df_index df) |}.

(** ** The corpus and the result object *)

Abbreviation doc_id := string (only parsing).
Abbreviation term_id := nat (only parsing).

(** A document as iterating the corpus yields it: a sequence of
    (term-id, count) pairs, which [_get_term_frequency] hands to [dict]. *)
Definition document := list (term_id * nat).

(** A Python value, for what the module holds and never looks into. *)
Inductive pyobject : Type :=
  | PyInt (z : Z)
  | PyStr (s : string)
  | PyPair (first second : pyobject).

(** A reference to an object that is shared and changed in place. *)
Abbreviation object_ref := nat (only parsing).

(** Modelled from the spec: the corpus, whose class is not in this module.
    The module reads two things of it that it does not relate one to the
    other: the attribute [_corpus], a sequence of (document-id, document)
    pairs of which [_get_doc_lengths] takes the ids and [len(doc)] only,
    so that a stored document is a sequence of Python values here; and the
    iteration over the corpus, which yields (term-id, count) sequences.
    The corpus maps term-ids to words, may hold a cached term-topic
    matrix, and holds a persistor object, which is shared and is here the
    reference to it. *)
Record Corpus := {
  _corpus_docs : list (doc_id * list pyobject);   (* corpus._corpus *)
  corpus_iter : list document;                    (* [doc for doc in corpus] *)
  get_id2word_dict : gmap term_id string;         (* corpus.get_id2word_dict() *)
  _dict : gmap term_id string;                    (* corpus._dict *)
  corpus_term_topic_matrix : option (list (list Z)); (* corpus.term_topic_matrix *)
  persistor : object_ref                          (* corpus.persistor *)
}.

(** Modelled from the spec: the fields [_get_topic_term_dists] and
    [_get_doc_topic_dists], methods this module calls and no class of it
    defines.  The first returns the term-topic matrix as a terms x topics
    table keyed by term-id, the second the document-topic matrix as a
    documents x topics table keyed by document-id.  The other fields are
    what the code reads from the object: its corpus, its matrix, the name
    of its class, and the naming method a concrete class implements. *)
Record TopicModelResult := {
  _corpus : Corpus;
  dz_T : list (list Z);                                (* self.dz.T, one row per topic *)
  class_name : string;                                 (* self.__class__.__name__ *)
  get_model_name_with_parameters : result string;
  _get_topic_term_dists : result (DataFrame term_id label);
  _get_doc_topic_dists : result (DataFrame doc_id label)
}.

(** ** get_top_words *)

Section get_top_words.
Context {np : Numpy}.

(** The two [word_ids] lines of the loop body. *)
Definition top_word_ids (topic : list Z) (topn : Z) : result (list nat) :=
  p ← argpartition topic (- topn);
  let word_ids := slice_from p (- topn) in
  cells ← take_ids topic word_ids;
  sorted_ids ← take_ids word_ids (argsort cells);
  Ok (reverse sorted_ids).

Definition top_words_of (self : TopicModelResult) (topic : list Z)
    (word_ids : list nat) : result (list (Z * string)) :=
  for_each (fun word_id =>
    w ← or_raise IndexError (topic !! word_id);
    s ← or_raise KeyError (get_id2word_dict (_corpus self) !! word_id);
    Ok (w, s)) word_ids.

Definition get_top_words (self : TopicModelResult) (topn : Z)
    : result (list (list (Z * string))) :=
  for_each (fun topic =>
    word_ids ← top_word_ids topic topn;
    top_words_of self topic word_ids) (dz_T self).
End get_top_words.

(** ** A reference numpy

    One implementation of the [Numpy] contract, used to run the code on
    concrete matrices: [argsort] sorts the positions by cell and, for equal
    cells, by position (a stable sort, as numpy's insertion sort on short
    arrays is), and [argpartition] returns an array without cells as it
    is, checks [kth] on any other and then returns the same full sort,
    which is a partition at every place. *)

Definition cell_le (a : list Z) (i j : nat) : Prop :=
  a !!! i < a !!! j ∨ (a !!! i = a !!! j ∧ (i ≤ j)%nat).

#[global] Instance cell_le_dec a i j : Decision (cell_le a i j).
Proof. unfold cell_le. apply _. Defined.

Definition argsort_ref (a : list Z) : list nat :=
  merge_sort (cell_le a) (seq 0 (length a)).

Definition argpartition_ref (a : list Z) (kth : Z) : result (list nat) :=
  match a with
  | [] => Ok []
  | _ =>
      if decide (kth_in_bounds (length a) kth) then Ok (argsort_ref a)
      else Raise ValueError
  end.

(** ** Term frequencies *)

(** [dict(pairs)]: a later pair with the same key replaces an earlier one. *)
Definition py_dict {K V} `{Countable K} (pairs : list (K * V)) : gmap K V :=
  foldl (fun m kv => <[kv.1 := kv.2]> m) ∅ pairs.

(** [Counter.update(mapping)]: the counts of the mapping are added to the
    counts already held. *)
Definition counter_update (tf m : gmap term_id nat) : gmap term_id nat :=
  union_with (fun x y => Some (x + y)%nat) tf m.

(** A [pd.Series] built from a dict is kept as the finite map from its
    labels to its values. *)
Definition _get_term_frequency (self : TopicModelResult) : gmap term_id nat :=
  foldl (fun tf doc => counter_update tf (py_dict doc)) ∅
        (corpus_iter (_corpus self)).

Definition _get_vocab (self : TopicModelResult) : gmap term_id string :=
  py_dict (map_to_list (_dict (_corpus self))).

(** ** Document lengths *)

(** Two targets assigned from [zip] applied to the unpacked pairs.  With
    no pair, [zip] gets no argument and yields nothing, and the two targets
    cannot be filled. *)
Definition unpack_zip_star {A B} (pairs : list (A * B)) : result (list A * list B) :=
  match pairs with
  | [] => Raise ValueError
  | _ => Ok (pairs.*1, pairs.*2)
  end.

(** [pd.Series(values, index=labels)], as its rows. *)
Definition Series_indexed {L V} (values : list V) (labels : list L) : list (L * V) :=
  zip labels values.

Definition _get_doc_lengths (self : TopicModelResult) : result (list (doc_id * nat)) :=
  '(id_index, doc_lengths) ←
     unpack_zip_star ((fun '(id, doc) => (id, length doc)) <$> _corpus_docs (_corpus self));
  Ok (Series_indexed doc_lengths id_index).

(** ** term_topic_matrix *)

(** The attribute is read and the value dropped: the body has no [return],
    so the call yields Python's [None]. *)
Definition term_topic_matrix (self : TopicModelResult) : result (option (list (list Z))) :=
  _ ← or_raise AttributeError (corpus_term_topic_matrix (_corpus self));
  Ok None.

(** ** Merged tables and the pyLDAvis payload *)

Definition _get_term_data (self : TopicModelResult) : result (DataFrame term_id label) :=
  let vocab := _get_vocab self in
  let tf := _get_term_frequency self in
  ttd ← _get_topic_term_dists self;
  let term_data_df := ttd in
  let term_data_df :=
    df_setitem_dict term_data_df (StrLabel "term_frequency")
      ((fun n => Num (Z.of_nat n)) <$> tf) in
  let term_data_df :=
    df_setitem_dict term_data_df (StrLabel "term") (Str <$> vocab) in
  Ok term_data_df.

Definition _get_doc_data (self : TopicModelResult) : result (DataFrame doc_id label) :=
  doc_data_df ← _get_doc_topic_dists self;
  lengths ← _get_doc_lengths self;
  df_setitem_rows doc_data_df (StrLabel "doc_length")
    ((fun '(id, n) => (id, Num (Z.of_nat n))) <$> lengths).

Inductive payload_value : Type :=
  | TermSeries (s : list (term_id * cell))
  | DocSeries (s : list (doc_id * cell))
  | TopicTermFrame (df : DataFrame label term_id)
  | DocTopicFrame (df : DataFrame doc_id label).

Definition to_py_lda_vis (self : TopicModelResult) : result (list (string * payload_value)) :=
  doc_data_df ← _get_doc_data self;
  term_data_df ← _get_term_data self;
  vocab ← df_getitem term_data_df (StrLabel "term");
  term_frequency ← df_getitem term_data_df (StrLabel "term_frequency");
  let topic_term_dists := df_T (iloc_drop_last 2 term_data_df) in
  let doc_topic_dists := iloc_drop_last 1 doc_data_df in
  doc_lengths ← df_getitem doc_data_df (StrLabel "doc_length");
  Ok [("vocab", TermSeries vocab);
      ("term_frequency", TermSeries term_frequency);
      ("topic_term_dists", TopicTermFrame topic_term_dists);
      ("doc_topic_dists", DocTopicFrame doc_topic_dists);
      ("doc_lengths", DocSeries doc_lengths)]%string.

(** ** Persistence *)

Section persistence.
(** [Args] is the mapping handed to a constructor as keyword arguments,
    [Model] what a constructor builds. *)
Context {Args Model : Type}.

(** The dict [{"class": ..., "saved_data": ...}]. *)
Record ModelRecord := {
  rec_class : string;
  rec_saved_data : Args
}.

(** Modelled from the spec: the persistor, which is not in this module.
    It is a key-value store of named model records with [store_model],
    [list_available_models] and [get_model_details].  The corpus holds one
    as an object, which [store_model] changes in place.  [Persistor(name)]
    opens the catalog kept in the file of that name.  The file a model is
    saved to holds the model and corpus metadata: the corpus saves itself
    and the catalog of its persistor under the file name it is given. *)
Record World := {
  persistors : gmap object_ref (gmap string ModelRecord);  (* the persistor objects *)
  files : gmap string (gmap string ModelRecord);           (* the catalogs on file *)
  saved_corpora : gmap string Corpus                       (* the corpora on file *)
}.

(** Modelled from the spec: [Persistor(filename)], the catalog on file
    under that name, empty when there is no such file. *)
Definition Persistor (w : World) (filename : string) : gmap string ModelRecord :=
  default ∅ (files w !! filename).

(** The catalog of the persistor object behind a reference. *)
Definition persistor_catalog (w : World) (p : object_ref) : gmap string ModelRecord :=
  default ∅ (persistors w !! p).

(** Modelled from the spec: the set of the names in a catalog. *)
Definition list_available_models (p : gmap string ModelRecord) : gset string := dom p.

(** Modelled from the spec: the record a catalog holds under a name. *)
Definition get_model_details (p : gmap string ModelRecord) (name : string)
    : result ModelRecord :=
  or_raise KeyError (p !! name).

(** Modelled from the spec: [store_model(name, record)] on the persistor
    object [p], which from then on holds the record under the name, in
    place of any record it held there. *)
Definition store_model (p : object_ref) (name : string) (r : ModelRecord) (w : World)
    : World :=
  {| persistors := <[p := <[name := r]> (persistor_catalog w p)]> (persistors w);
     files := files w;
     saved_corpora := saved_corpora w |}.

(** Modelled from the spec: [corpus.save(filename)], which writes the
    corpus and the catalog of its persistor to the file of that name. *)
Definition corpus_save (c : Corpus) (filename : string) (w : World) : World :=
  {| persistors := persistors w;
     files := <[filename := persistor_catalog w (persistor c)]> (files w);
     saved_corpora := <[filename := c]> (saved_corpora w) |}.

(** [self._persistor] is the persistor of the corpus. *)
Definition _persistor (self : TopicModelResult) : object_ref := persistor (_corpus self).

Definition save (self : TopicModelResult) (filename : string) (saved_data : Args)
    (w : World) : result World :=
  name ← get_model_name_with_parameters self;
  let w := store_model (_persistor self) name
             {| rec_class := class_name self; rec_saved_data := saved_data |} w in
  Ok (corpus_save (_corpus self) filename w).

(** A constructor call, as [load_model] makes it. *)
Inductive event : Type :=
  | Constructed (class : string) (kwargs : Args).

(** The result comes with the constructor calls made on the way. *)
Definition load_model (registered_models : gmap string (Args → result Model))
    (w : World) (filename model_name : string) : list event * result Model :=
  let p := Persistor w filename in
  if decide (model_name ∈ list_available_models p) then
    match get_model_details p model_name with
    | Raise e => ([], Raise e)
    | Ok data_dict =>
        match registered_models !! rec_class data_dict with
        | None => ([], Raise KeyError)
        | Some constructor =>
            ([Constructed (rec_class data_dict) (rec_saved_data data_dict)],
             constructor (rec_saved_data data_dict))
        end
    end
  else
    ([], Raise (NameError ("Model name " +:+ model_name +:+ " has not yet been created."))).
End persistence.
Arguments ModelRecord : clear implicits.
Arguments World : clear implicits.
Arguments event : clear implicits.

(** ** termite_data *)

(** A row of the termite table, the dict [{"topic": ..., "weight": ...,
    "word": ...}] of the source. *)
Record termite_row := {
  topic : nat;
  weight : Z;
  word : string
}.

(** The table is kept as its rows, in the order [chain.from_iterable]
    yields them.  [topn_words] is [None] when the caller leaves the
    argument to its default of 15. *)
Definition termite_data {np : Numpy} (self : TopicModelResult)
    (topn_words : option Z) : result (list termite_row) :=
  let topn_words := default 15 topn_words in
  top_words ← get_top_words self topn_words;
  Ok (mjoin (imap (fun topic_id topic =>
               (fun '(weight, word) =>
                  {| topic := topic_id; weight := weight; word := word |}) <$> topic)
             top_words)).

(** ** A second numpy

    As the reference one, with equal cells in descending order of their
    positions: another implementation inside the contract. *)

Definition cell_le_desc (a : list Z) (i j : nat) : Prop :=
  a !!! i < a !!! j ∨ (a !!! i = a !!! j ∧ (j ≤ i)%nat).

#[global] Instance cell_le_desc_dec a i j : Decision (cell_le_desc a i j).
Proof. unfold cell_le_desc. apply _. Defined.

Definition argsort_desc (a : list Z) : list nat :=
  merge_sort (cell_le_desc a) (seq 0 (length a)).

Definition argpartition_desc (a : list Z) (kth : Z) : result (list nat) :=
  match a with
  | [] => Ok []
  | _ =>
      if decide (kth_in_bounds (length a) kth) then Ok (argsort_desc a)
      else Raise ValueError
  end.

(** ** Counting in a document *)


(** The counts of the pairs of [doc] that list the term [t]. *)
Definition counts_of (t : term_id) (doc : document) : list nat :=
  (filter (fun kv => kv.1 = t) doc).*2.

(** ** The vocabulary, ties, and running examples *)

Definition vocabulary_size (self : TopicModelResult) : nat :=
  size (get_id2word_dict (_corpus self)).

(** The term-ids are the positions [0 .. vocabulary_size - 1], and every
    topic row has one cell per term. *)
Definition matrix_fits_vocabulary (self : TopicModelResult) : Prop :=
  (∀ i, is_Some (get_id2word_dict (_corpus self) !! i) ↔ (i < vocabulary_size self)%nat) ∧
  Forall (fun topic => length topic = vocabulary_size self) (dz_T self).

(** [row] is a top-[topn] list of [topic]: [topn] (weight, term) pairs of
    distinct terms, weights non-increasing, and no term left out weighs
    more than one returned. *)
Definition top_row (self : TopicModelResult) (topn : Z) (topic : list Z)
    (row : list (Z * string)) : Prop :=
  length row = Z.to_nat topn ∧
  Sorted (flip Z.le) (row.*1) ∧
  ∃ ids : list nat,
    NoDup ids ∧
    Forall2 (fun i e => topic !! i = Some e.1 ∧
                        get_id2word_dict (_corpus self) !! i = Some e.2) ids row ∧
    ∀ j w, (j < length topic)%nat → j ∉ ids → w ∈ row.*1 → topic !!! j ≤ w.

(** Ties go to the lower term-id: of two returned terms of equal weight the
    lower id stands first, and a returned term that ties with one left out
    has the lower id. *)
Definition ties_prefer_lower_id (topic : list Z) (ids : list nat) : Prop :=
  (∀ u v i j, ids !! u = Some i → ids !! v = Some j → (u < v)%nat →
              topic !!! i = topic !!! j → (i < j)%nat) ∧
  (∀ i j, i ∈ ids → (j < length topic)%nat → j ∉ ids →
          topic !!! i = topic !!! j → (i < j)%nat).

(** A stable [argsort]: equal cells keep the order of their positions. *)
Definition stable_argsort (np : Numpy) : Prop :=
  ∀ a u v i j, argsort a !! u = Some i → argsort a !! v = Some j → (u < v)%nat →
               a !!! i = a !!! j → (i < j)%nat.

(** The corpus [[{a:2, b:1}, {a:1, c:3}]] of two documents [doc0] and
    [doc1] over the terms [a], [b], [c], stored as the token sequences
    [a a b] and [a c c c]. *)
Definition term_a : term_id := 0%nat.
Definition term_b : term_id := 1%nat.
Definition term_c : term_id := 2%nat.

Definition example_corpus : Corpus := {|
  _corpus_docs := [("doc0", [PyStr "a"; PyStr "a"; PyStr "b"]);
                   ("doc1", [PyStr "a"; PyStr "c"; PyStr "c"; PyStr "c"])]%string;
  corpus_iter := [[(term_a, 2); (term_b, 1)]; [(term_a, 1); (term_c, 3)]]%nat;
  get_id2word_dict := {[ term_a := "a"; term_b := "b"; term_c := "c" ]}%string;
  _dict := {[ term_a := "a"; term_b := "b"; term_c := "c" ]}%string;
  corpus_term_topic_matrix := Some [[1; 2; 3]];
  persistor := 1%nat
|}.

(** A model over it with the term-topic matrix [m], two topics in its
    tables. *)
Definition example_model (m : list (list Z)) : TopicModelResult := {|
  _corpus := example_corpus;
  dz_T := m;
  class_name := "LDA";
  get_model_name_with_parameters := Ok "LDA_2_topics"%string;
  _get_topic_term_dists := Ok {|
    df_index := [term_a; term_b; term_c];
    df_columns := [(IntLabel 0, [Num 1; Num 2; Num 3]);
                   (IntLabel 1, [Num 4; Num 5; Num 6])] |};
  _get_doc_topic_dists := Ok {|
    df_index := ["doc0"; "doc1"]%string;
    df_columns := [(IntLabel 0, [Num 1; Num 2]); (IntLabel 1, [Num 4; Num 5])] |}
|}.

(** The same model over a corpus without documents. *)
Definition empty_corpus : Corpus := {|
  _corpus_docs := [];
  corpus_iter := [];
  get_id2word_dict := get_id2word_dict example_corpus;
  _dict := _dict example_corpus;
  corpus_term_topic_matrix := None;
  persistor := persistor example_corpus
|}.

Definition empty_corpus_model : TopicModelResult := {|
  _corpus := empty_corpus;
  dz_T := [];
  class_name := "LDA";
  get_model_name_with_parameters := Ok "LDA_2_topics"%string;
  _get_topic_term_dists := _get_topic_term_dists (example_model []);
  _get_doc_topic_dists := Ok {| df_index := []; df_columns := [(IntLabel 0, []); (IntLabel 1, [])] |}
|}.


(** A corpus whose documents differ in length, and a model whose
    documents x topics table lists them in another order, with an id the
    corpus does not have. *)
Definition uneven_corpus : Corpus := {|
  _corpus_docs := [("doc0", [PyStr "a"]);
                   ("doc1", [PyStr "a"; PyStr "c"])]%string;
  corpus_iter := [[(term_a, 1)]; [(term_a, 1); (term_c, 1)]]%nat;
  get_id2word_dict := get_id2word_dict example_corpus;
  _dict := _dict example_corpus;
  corpus_term_topic_matrix := None;
  persistor := persistor example_corpus
|}.

Definition reordered_model : TopicModelResult := {|
  _corpus := uneven_corpus;
  dz_T := [];
  class_name := "LDA";
  get_model_name_with_parameters := Ok "LDA_2_topics"%string;
  _get_topic_term_dists := _get_topic_term_dists (example_model []);
  _get_doc_topic_dists := Ok {|
    df_index := ["doc1"; "doc0"; "doc9"]%string;
    df_columns := [(IntLabel 0, [Num 1; Num 2; Num 3]);
                   (IntLabel 1, [Num 4; Num 5; Num 6])] |}
|}.

(** A model over the example corpus whose two tables have their topic
    columns and no row. *)
Definition rowless_model : TopicModelResult := {|
  _corpus := example_corpus;
  dz_T := [];
  class_name := "LDA";
  get_model_name_with_parameters := Ok "LDA_2_topics"%string;
  _get_topic_term_dists := Ok {| df_index := []; df_columns := [(IntLabel 0, []); (IntLabel 1, [])] |};
  _get_doc_topic_dists := Ok {| df_index := []; df_columns := [(IntLabel 0, []); (IntLabel 1, [])] |}
|}.

(** A world where the persistor of the example corpus already holds a
    model and nothing is on file, the world after the example model has
    been saved, and a registry of two constructors. *)
Definition example_world : World nat := {|
  persistors := {[ 1%nat :=
                     {[ "PLSA_3_topics"%string :=
                          {| rec_class := "PLSA"; rec_saved_data := 3%nat |} ]} ]};
  files := ∅;
  saved_corpora := ∅
|}.

Definition example_world_saved : World nat :=
  corpus_save example_corpus "corpus.json"
    (store_model 1%nat "LDA_2_topics"
       {| rec_class := "LDA"; rec_saved_data := 2%nat |} example_world).

Definition example_registry : gmap string (nat → result (string * nat)) :=
  {[ "LDA"%string := fun ntopics => Ok ("LDA"%string, ntopics);
     "PLSA"%string := fun ntopics => Ok ("PLSA"%string, ntopics) ]}.

(** A model over a vocabulary without terms: one topic row, no cell. *)
Definition no_vocabulary_corpus : Corpus := {|
  _corpus_docs := [];
  corpus_iter := [];
  get_id2word_dict := ∅;
  _dict := ∅;
  corpus_term_topic_matrix := None;
  persistor := persistor example_corpus
|}.

Definition no_vocabulary_model : TopicModelResult := {|
  _corpus := no_vocabulary_corpus;
  dz_T := [[]];
  class_name := "LDA";
  get_model_name_with_parameters := Ok "LDA_1_topics"%string;
  _get_topic_term_dists := Ok {| df_index := []; df_columns := [(IntLabel 0, [])] |};
  _get_doc_topic_dists := Ok {| df_index := []; df_columns := [(IntLabel 0, [])] |}
|}.

(** * Properties *)

(** ** The result monad *)

Lemma bind_Ok {A B} (f : A → result B) (a : A) : Ok a ≫= f = f a.
Proof. reflexivity. Qed.

Lemma for_each_Ok {A B} (f : A → result B) (g : A → B) (l : list A) :
  Forall (fun x => f x = Ok (g x)) l → for_each f l = Ok (g <$> l).
Proof.
  induction 1 as [|x l Hx _ IH]; simpl; [done|].
  rewrite Hx; simpl. rewrite IH. done.
Qed.

Lemma for_each_Forall2 {A B} (P : A → B → Prop) (f : A → result B) (l : list A) :
  Forall (fun x => ∃ y, f x = Ok y ∧ P x y) l →
  ∃ ys, for_each f l = Ok ys ∧ Forall2 P l ys.
Proof.
  induction 1 as [|x l (y & Hy & HP) _ (ys & Hys & IH)]; simpl.
  - exists []. split; [done|constructor].
  - exists (y :: ys). rewrite Hy; simpl. rewrite Hys; simpl.
    split; [done|by constructor].
Qed.

Lemma take_ids_Ok {A} `{!Inhabited A} (a : list A) (ids : list nat) :
  Forall (fun i => (i < length a)%nat) ids →
  take_ids a ids = Ok ((fun i => a !!! i) <$> ids).
Proof.
  intros Hids. apply for_each_Ok.
  eapply Forall_impl; [exact Hids|]. intros i Hi; simpl.
  by rewrite (list_lookup_lookup_total_lt a i Hi).
Qed.

(** ** The reference numpy meets the contract *)

#[global] Instance cell_le_total a : Total (cell_le a).
Proof. intros i j. unfold cell_le. lia. Qed.

#[global] Instance cell_le_trans a : Transitive (cell_le a).
Proof. intros i j k. unfold cell_le. lia. Qed.

Lemma cell_le_le a i j : cell_le a i j → a !!! i ≤ a !!! j.
Proof. unfold cell_le. lia. Qed.

Lemma argsort_ref_perm a : argsort_ref a ≡ₚ seq 0 (length a).
Proof. apply merge_sort_Permutation. Qed.

Lemma argsort_ref_strongly_sorted a : StronglySorted (cell_le a) (argsort_ref a).
Proof. apply StronglySorted_merge_sort; apply _. Qed.

Lemma argsort_ref_sorted a : Sorted Z.le ((fun i => a !!! i) <$> argsort_ref a).
Proof.
  eapply Sorted_fmap; [|apply Sorted_merge_sort; apply _].
  intros i j. apply cell_le_le.
Qed.

Lemma argpartition_ref_out_of_bounds a kth :
  a ≠ [] → kth_fits kth → ¬ kth_in_bounds (length a) kth →
  argpartition_ref a kth = Raise ValueError.
Proof.
  intros Ha _ Hk. unfold argpartition_ref. destruct a; [done|].
  by rewrite decide_False.
Qed.

Lemma argpartition_ref_empty kth : kth_fits kth → argpartition_ref [] kth = Ok [].
Proof. done. Qed.

Lemma argpartition_ref_positions a kth p :
  argpartition_ref a kth = Ok p → p ≡ₚ seq 0 (length a).
Proof.
  unfold argpartition_ref. destruct a as [|x a]; [by intros [= <-]|].
  case_decide; [|done]. intros [= <-]. apply argsort_ref_perm.
Qed.

Lemma argpartition_ref_in_bounds a kth :
  kth_in_bounds (length a) kth →
  ∃ p, argpartition_ref a kth = Ok p ∧
       p ≡ₚ seq 0 (length a) ∧
       let k := norm_kth (length a) kth in
       Forall (fun i => a !!! i ≤ a !!! (p !!! k)) (take k p) ∧
       Forall (fun j => a !!! (p !!! k) ≤ a !!! j) (drop k p).
Proof.
  intros Hk. exists (argsort_ref a).
  assert (Ha : argpartition_ref a kth = Ok (argsort_ref a)).
  { unfold argpartition_ref. destruct a as [|x a].
    - unfold kth_in_bounds in Hk. simpl in Hk. lia.
    - by rewrite decide_True. }
  split; [done|]. split; [apply argsort_ref_perm|]. simpl.
  set (p := argsort_ref a). set (k := norm_kth (length a) kth).
  assert (Hlen : length p = length a).
  { unfold p. rewrite (Permutation_length (argsort_ref_perm a)). apply length_seq. }
  assert (Hlt : (k < length p)%nat).
  { unfold k, norm_kth, kth_in_bounds in *. rewrite Hlen. case_match; lia. }
  destruct (lookup_lt_is_Some_2 p k Hlt) as [x Hx].
  rewrite (list_lookup_total_correct p k x Hx).
  pose proof (argsort_ref_strongly_sorted a) as Hs. fold p in Hs.
  rewrite <-(take_drop_middle p k x Hx) in Hs.
  apply StronglySorted_app in Hs as (Hcross & _ & Hr).
  apply StronglySorted_cons in Hr as [Hr _].
  split.
  - apply Forall_forall. intros i Hi. apply cell_le_le, Hcross; [done|].
    apply list_elem_of_here.
  - rewrite (drop_S p x k Hx). constructor; [lia|].
    eapply Forall_impl; [exact Hr|]. intros j. apply cell_le_le.
Qed.

Definition numpy_ref : Numpy := {|
  argpartition := argpartition_ref;
  argsort := argsort_ref;
  argpartition_out_of_bounds := argpartition_ref_out_of_bounds;
  argpartition_empty := argpartition_ref_empty;
  argpartition_in_bounds := argpartition_ref_in_bounds;
  argpartition_positions := argpartition_ref_positions;
  argsort_perm := argsort_ref_perm;
  argsort_sorted := argsort_ref_sorted
|}.

(** ** Lists of positions *)

Lemma fmap_lookup_total_seq {A} `{!Inhabited A} (l : list A) :
  (fun i => l !!! i) <$> seq 0 (length l) = l.
Proof.
  apply list_eq. intros i. rewrite list_lookup_fmap.
  destruct (decide (i < length l)%nat) as [Hi|Hi].
  - rewrite lookup_seq_lt by done. simpl.
    by rewrite (list_lookup_lookup_total_lt l i Hi).
  - rewrite lookup_seq_ge by lia. simpl. symmetry. apply lookup_ge_None_2. lia.
Qed.

Lemma fmap_lookup_total_perm {A} `{!Inhabited A} (l : list A) (ids : list nat) :
  ids ≡ₚ seq 0 (length l) → (fun i => l !!! i) <$> ids ≡ₚ l.
Proof. intros ->. by rewrite fmap_lookup_total_seq. Qed.

Lemma perm_seq_lt (ids : list nat) (n : nat) :
  ids ≡ₚ seq 0 n → Forall (fun i => (i < n)%nat) ids.
Proof.
  intros Hp. apply Forall_forall. intros i Hi.
  rewrite Hp in Hi. apply elem_of_seq in Hi. lia.
Qed.

Lemma slice_from_subseteq {A} (l : list A) (start : Z) : slice_from l start ⊆ l.
Proof. apply subseteq_drop. Qed.

Lemma slice_from_last {A} (l : list A) (n : Z) :
  1 ≤ n ≤ Z.of_nat (length l) →
  slice_from l (- n) = drop (length l - Z.to_nat n) l.
Proof.
  intros Hn. unfold slice_from.
  destruct (Z.ltb_spec (- n) 0); [|lia]. f_equal. lia.
Qed.

Lemma slice_from_zero {A} (l : list A) : slice_from l (- 0) = l.
Proof. unfold slice_from. simpl. by rewrite Z.min_l by lia. Qed.

(** ** get_top_words over any numpy *)

Section top_words.
Context {np : Numpy}.

(** The two lines of the loop, once the partition has returned [p]. *)
Lemma top_word_ids_unfold (topic : list Z) (topn : Z) (p : list nat) :
  argpartition topic (- topn) = Ok p →
  p ≡ₚ seq 0 (length topic) →
  let word_ids := slice_from p (- topn) in
  top_word_ids topic topn =
    Ok (reverse ((fun i => word_ids !!! i) <$>
                   argsort ((fun i => topic !!! i) <$> word_ids))).
Proof.
  intros Hp Hperm word_ids. unfold top_word_ids. rewrite Hp. simpl.
  fold word_ids. rewrite take_ids_Ok; simpl.
  - rewrite take_ids_Ok; [done|].
    eapply perm_seq_lt. rewrite argsort_perm. by rewrite length_fmap.
  - apply Forall_forall. intros i Hi.
    apply slice_from_subseteq in Hi. rewrite Hperm in Hi.
    apply elem_of_seq in Hi. lia.
Qed.

(** The returned positions are the sliced ones, in another order. *)
Lemma top_word_ids_perm (topic : list Z) (topn : Z) (p : list nat) :
  argpartition topic (- topn) = Ok p →
  p ≡ₚ seq 0 (length topic) →
  ∃ ids, top_word_ids topic topn = Ok ids ∧ ids ≡ₚ slice_from p (- topn).
Proof.
  intros Hp Hperm. eexists. split; [by apply top_word_ids_unfold|].
  rewrite reverse_Permutation. apply fmap_lookup_total_perm.
  rewrite argsort_perm. by rewrite length_fmap.
Qed.

(** Their cells come in descending order. *)
Lemma top_word_ids_sorted (topic : list Z) (topn : Z) (p ids : list nat) :
  argpartition topic (- topn) = Ok p →
  p ≡ₚ seq 0 (length topic) →
  top_word_ids topic topn = Ok ids →
  Sorted (flip Z.le) ((fun i => topic !!! i) <$> ids).
Proof.
  intros Hp Hperm. rewrite (top_word_ids_unfold topic topn p Hp Hperm).
  intros [= <-]. rewrite fmap_reverse. apply Sorted_reverse.
  set (word_ids := slice_from p (- topn)).
  set (cells := (fun i => topic !!! i) <$> word_ids).
  rewrite <-list_fmap_compose.
  replace ((fun i => topic !!! i) ∘ (fun i => word_ids !!! i) <$> argsort cells)
    with ((fun i => cells !!! i) <$> argsort cells); [apply argsort_sorted|].
  apply Forall_fmap_ext, Forall_forall. intros i Hi; simpl.
  rewrite argsort_perm in Hi. apply elem_of_seq in Hi.
  unfold cells in *. rewrite length_fmap in Hi.
  by rewrite (list_lookup_total_fmap (fun i => topic !!! i) word_ids i) by lia.
Qed.

(** With [1 <= topn <= len(topic)] the call returns [topn] distinct
    positions, in descending order of their cells, and no position left
    out has a larger cell than one returned. *)
Lemma top_word_ids_correct (topic : list Z) (topn : Z) :
  1 ≤ topn ≤ Z.of_nat (length topic) →
  ∃ ids, top_word_ids topic topn = Ok ids ∧
         length ids = Z.to_nat topn ∧
         NoDup ids ∧
         Forall (fun i => (i < length topic)%nat) ids ∧
         Sorted (flip Z.le) ((fun i => topic !!! i) <$> ids) ∧
         ∀ i j, i ∈ ids → (j < length topic)%nat → j ∉ ids →
                topic !!! j ≤ topic !!! i.
Proof.
  intros Hn.
  destruct (argpartition_in_bounds topic (- topn)) as (p & Hp & Hperm & Hlo & Hhi).
  { unfold kth_in_bounds. lia. }
  assert (Hlen : length p = length topic).
  { rewrite (Permutation_length Hperm). apply length_seq. }
  set (k := norm_kth (length topic) (- topn)) in *.
  assert (Hk : k = (length topic - Z.to_nat topn)%nat).
  { unfold k, norm_kth. destruct (Z.ltb_spec (- topn) 0); lia. }
  destruct (top_word_ids_perm topic topn p Hp Hperm) as (ids & Hids & Hsl).
  rewrite slice_from_last, Hlen, <-Hk in Hsl by lia.
  assert (Hnd : NoDup p) by (rewrite Hperm; apply NoDup_seq).
  rewrite <-(take_drop k p) in Hnd. apply NoDup_app in Hnd as (_ & Hdisj & Hnd).
  exists ids. split; [done|]. split; [|split; [|split; [|split]]].
  - rewrite (Permutation_length Hsl), length_drop. lia.
  - by rewrite Hsl.
  - apply Forall_forall. intros i Hi. rewrite Hsl in Hi.
    apply subseteq_drop in Hi. rewrite Hperm in Hi. apply elem_of_seq in Hi. lia.
  - by eapply top_word_ids_sorted.
  - intros i j Hi Hj Hnot. rewrite Hsl in Hi, Hnot.
    assert (Hjp : j ∈ take k p ++ drop k p).
    { rewrite take_drop, Hperm. apply elem_of_seq. lia. }
    apply elem_of_app in Hjp as [Hjp|Hjp]; [|done].
    rewrite Forall_forall in Hlo, Hhi.
    etrans; [by apply Hlo|by apply Hhi].
Qed.

(** With [topn] beyond the row the partition refuses its [kth]. *)
Lemma top_word_ids_too_many (topic : list Z) (topn : Z) :
  topic ≠ [] → kth_fits (- topn) →
  Z.of_nat (length topic) < topn → top_word_ids topic topn = Raise ValueError.
Proof.
  intros Hne Hfit Hn. unfold top_word_ids.
  rewrite argpartition_out_of_bounds; [done..|]. unfold kth_in_bounds. lia.
Qed.
End top_words.

(** ** get_top_words on a whole matrix *)

Section get_top_words_matrix.
Context {np : Numpy}.

Lemma top_words_of_Ok (self : TopicModelResult) (topic : list Z) (ids : list nat) :
  matrix_fits_vocabulary self →
  length topic = vocabulary_size self →
  Forall (fun i => (i < length topic)%nat) ids →
  top_words_of self topic ids =
    Ok ((fun i => (topic !!! i, get_id2word_dict (_corpus self) !!! i)) <$> ids).
Proof.
  intros [Hvoc _] Hlen Hids. apply for_each_Ok.
  eapply Forall_impl; [exact Hids|]. intros i Hi; cbv beta in *.
  rewrite (list_lookup_lookup_total_lt topic i Hi); simpl.
  destruct (proj2 (Hvoc i)) as [s Hs]; [lia|].
  rewrite Hs; simpl. by rewrite (lookup_total_correct _ _ _ Hs).
Qed.

(** X1.  For [1 <= topn <= vocabulary size] the table has one row per
    topic, each a top-[topn] list of its topic: [topn] pairs of distinct
    terms, weights non-increasing, none left out heavier than one
    returned. *)
Lemma get_top_words_top_rows (self : TopicModelResult) (topn : Z) :
  matrix_fits_vocabulary self →
  1 ≤ topn ≤ Z.of_nat (vocabulary_size self) →
  ∃ top_words, get_top_words self topn = Ok top_words ∧
               Forall2 (top_row self topn) (dz_T self) top_words.
Proof.
  intros Hfit Hn. unfold get_top_words. apply for_each_Forall2.
  pose proof Hfit as [Hvoc Hrows].
  eapply Forall_impl; [exact Hrows|]. intros topic Hlen; cbv beta in *.
  destruct (top_word_ids_correct topic topn) as (ids & -> & Hl & Hnd & Hlt & Hs & Htop);
    [lia|]. simpl.
  rewrite (top_words_of_Ok self topic ids Hfit Hlen Hlt).
  eexists. split; [done|]. unfold top_row.
  rewrite <-list_fmap_compose. split; [by rewrite length_fmap|]. split; [done|].
  exists ids. split; [done|]. split.
  - apply Forall2_fmap_r, Forall_Forall2_diag.
    eapply Forall_impl; [exact Hlt|]. intros i Hi; cbv beta in *; simpl.
    split; [by apply list_lookup_lookup_total_lt|].
    destruct (proj2 (Hvoc i)) as [s Hs']; [lia|].
    by rewrite (lookup_total_correct _ _ _ Hs').
  - intros j w Hj Hnot Hw. apply list_elem_of_fmap in Hw as (i & -> & Hi).
    simpl. by apply Htop.
Qed.

(** With [topn = 0] every row of the table has the whole vocabulary. *)
Lemma get_top_words_zero (self : TopicModelResult) :
  matrix_fits_vocabulary self →
  (1 ≤ vocabulary_size self)%nat →
  ∃ top_words, get_top_words self 0 = Ok top_words ∧
               Forall2 (fun _ row => length row = vocabulary_size self)
                       (dz_T self) top_words.
Proof.
  intros Hfit Hv. unfold get_top_words. apply for_each_Forall2.
  pose proof Hfit as [Hvoc Hrows].
  eapply Forall_impl; [exact Hrows|]. intros topic Hlen; cbv beta in *.
  destruct (argpartition_in_bounds topic (- 0)) as (p & Hp & Hperm & _).
  { unfold kth_in_bounds. lia. }
  destruct (top_word_ids_perm topic 0 p Hp Hperm) as (ids & -> & Hsl). simpl.
  rewrite slice_from_zero, Hperm in Hsl.
  rewrite (top_words_of_Ok self topic ids Hfit Hlen) by by apply perm_seq_lt.
  eexists. split; [done|].
  by rewrite length_fmap, (Permutation_length Hsl), length_seq.
Qed.

(** With [topn] above the length of the first row, a row with a cell,
    the call raises. *)
Lemma get_top_words_too_many (self : TopicModelResult) (topn : Z)
    (topic : list Z) (rest : list (list Z)) :
  dz_T self = topic :: rest →
  topic ≠ [] → kth_fits (- topn) →
  Z.of_nat (length topic) < topn →
  get_top_words self topn = Raise ValueError.
Proof.
  intros Hdz Hne Hfit Hn. unfold get_top_words. rewrite Hdz. simpl.
  by rewrite top_word_ids_too_many.
Qed.
End get_top_words_matrix.

(** ** The example corpus *)

Lemma example_vocabulary_size m : vocabulary_size (example_model m) = 3%nat.
Proof. reflexivity. Qed.

Lemma example_fits (m : list (list Z)) :
  Forall (fun topic => length topic = 3%nat) m →
  matrix_fits_vocabulary (example_model m).
Proof.
  intros Hm. split; [|exact Hm].
  intros i. rewrite example_vocabulary_size. simpl.
  unfold term_a, term_b, term_c.
  destruct i as [|[|[|i]]]; simpl.
  1-3: split; [lia|intros _; eexists; reflexivity].
  split; [|lia]. intros [s Hs]. by simplify_map_eq.
Qed.

(** The code run on a matrix of two topics: the two heaviest terms of each
    row, the heavier first. *)
Example get_top_words_two :
  @get_top_words numpy_ref (example_model [[5; 7; 6]; [3; 1; 2]]) 2 =
    Ok [[(7, "b"); (6, "c")]; [(3, "a"); (2, "c")]]%string.
Proof. by vm_compute. Qed.

(** ** Claims about get_top_words *)

(** C1.  The claim: for every [topn] up to the vocabulary size,
    [get_top_words(topn)] returns, per topic, exactly [topn] pairs in
    non-increasing weight that dominate the pairs left out.  The code
    breaks it at [topn = 0]: the slice [[-0:]] is the whole array, so over
    the matrix [[5, 7, 6]] and the three-term vocabulary the one row has
    three entries, whatever numpy does inside its contract; with the
    reference numpy it is [(7, b), (6, c), (5, a)]. *)
Theorem get_top_words_topn_zero :
  (∀ np : Numpy, ∃ row,
     @get_top_words np (example_model [[5; 7; 6]]) 0 = Ok [row] ∧
     length row = 3%nat) ∧
  @get_top_words numpy_ref (example_model [[5; 7; 6]]) 0 =
    Ok [[(7, "b"); (6, "c"); (5, "a")]]%string.
Proof.
  split; [|by vm_compute].
  intros np.
  destruct (@get_top_words_zero np (example_model [[5; 7; 6]]))
    as (tw & Htw & Hrows).
  - apply example_fits. by repeat constructor.
  - rewrite example_vocabulary_size. lia.
  - simpl in Hrows. apply Forall2_cons_inv_l in Hrows as (row & tw' & Hrow & Hnil & ->).
    apply Forall2_nil_inv_l in Hnil as ->. by exists row.
Qed.

Lemma argpartition_Ok_perm {np : Numpy} (a : list Z) (kth : Z) (p : list nat) :
  argpartition a kth = Ok p → p ≡ₚ seq 0 (length a).
Proof. apply argpartition_positions. Qed.

Lemma StronglySorted_lookup {A} (R : relation A) (l : list A) u v x y :
  StronglySorted R l → l !! u = Some x → l !! v = Some y → (u < v)%nat → R x y.
Proof.
  intros Hs. revert u v. induction Hs as [|z l Hs IH Hz]; intros u v Hu Hv Huv.
  - by rewrite lookup_nil in Hu.
  - destruct v as [|v]; [lia|]. destruct u as [|u]; simpl in *.
    + injection Hu as ->. rewrite Forall_forall in Hz.
      by eapply Hz, list_elem_of_lookup_2.
    + eapply IH; [done..|lia].
Qed.

Lemma numpy_ref_stable : stable_argsort numpy_ref.
Proof.
  intros a u v i j Hu Hv Huv Heq. simpl in Hu, Hv.
  pose proof (StronglySorted_lookup _ _ _ _ _ _
                (argsort_ref_strongly_sorted a) Hu Hv Huv) as Hle.
  assert (i ≠ j).
  { intros ->. assert (NoDup (argsort_ref a)) as Hnd.
    { rewrite argsort_ref_perm. apply NoDup_seq. }
    pose proof (NoDup_lookup _ _ _ _ Hnd Hu Hv). lia. }
  unfold cell_le in Hle. lia.
Qed.

(** C2 (as amended).  No term-id decides a tie.  Equal weights come out in
    the order numpy's partition and sort leave them, turned round by the
    final reversal: when [argsort] is stable, of two positions of equal
    weight in the slice of the partition the one listed later in the slice
    stands earlier in the result. *)
Theorem top_word_ids_ties_reversed {np : Numpy} (topic : list Z) (topn : Z)
    (p ids : list nat) (u v i j : nat) :
  stable_argsort np →
  argpartition topic (- topn) = Ok p →
  top_word_ids topic topn = Ok ids →
  slice_from p (- topn) !! u = Some i →
  slice_from p (- topn) !! v = Some j →
  (u < v)%nat →
  topic !!! i = topic !!! j →
  ∃ u' v', ids !! u' = Some i ∧ ids !! v' = Some j ∧ (v' < u')%nat.
Proof.
  intros Hst Hp Hids Hu Hv Huv Heq.
  pose proof (argpartition_Ok_perm _ _ _ Hp) as Hperm.
  rewrite (top_word_ids_unfold topic topn p Hp Hperm) in Hids.
  injection Hids as <-.
  set (ws := slice_from p (- topn)) in *.
  set (cells := (fun i => topic !!! i) <$> ws).
  assert (Hlu := lookup_lt_Some _ _ _ Hu). assert (Hlv := lookup_lt_Some _ _ _ Hv).
  assert (HA : argsort cells ≡ₚ seq 0 (length ws)).
  { rewrite argsort_perm. unfold cells. by rewrite length_fmap. }
  assert (Hlen : length (argsort cells) = length ws).
  { by rewrite (Permutation_length HA), length_seq. }
  destruct (list_elem_of_lookup_1 (argsort cells) u) as [au Hau].
  { rewrite HA. apply elem_of_seq. lia. }
  destruct (list_elem_of_lookup_1 (argsort cells) v) as [av Hav].
  { rewrite HA. apply elem_of_seq. lia. }
  assert (Hcu : cells !!! u = topic !!! i).
  { unfold cells. rewrite (list_lookup_total_fmap (fun i => topic !!! i) ws u) by lia.
    by rewrite (list_lookup_total_correct ws u i Hu). }
  assert (Hcv : cells !!! v = topic !!! j).
  { unfold cells. rewrite (list_lookup_total_fmap (fun i => topic !!! i) ws v) by lia.
    by rewrite (list_lookup_total_correct ws v j Hv). }
  assert (Hlt : (au < av)%nat).
  { destruct (decide (au = av)) as [->|Hne].
    - rewrite Hau in Hav. injection Hav. lia.
    - destruct (decide (av < au)%nat) as [Hgt|]; [|lia].
      pose proof (Hst cells av au v u Hav Hau Hgt). lia. }
  assert (Hbu := lookup_lt_Some _ _ _ Hau). assert (Hbv := lookup_lt_Some _ _ _ Hav).
  set (l := (fun i => ws !!! i) <$> argsort cells).
  assert (Hl : length l = length ws) by (unfold l; by rewrite length_fmap).
  exists (length l - S au)%nat, (length l - S av)%nat.
  split; [|split; [|lia]].
  - rewrite reverse_lookup by lia.
    replace (length l - S (length l - S au))%nat with au by lia.
    unfold l. rewrite list_lookup_fmap, Hau. simpl.
    by rewrite (list_lookup_total_correct ws u i Hu).
  - rewrite reverse_lookup by lia.
    replace (length l - S (length l - S av))%nat with av by lia.
    unfold l. rewrite list_lookup_fmap, Hav. simpl.
    by rewrite (list_lookup_total_correct ws v j Hv).
Qed.

(** The amended C2 at the row [[1, 1, 1]] with [topn = 2]: the slice of the
    partition is [[1, 2]], and the result lists position 2 before 1. *)
Lemma top_word_ids_ties_reversed_witness :
  stable_argsort numpy_ref ∧
  @argpartition numpy_ref [1; 1; 1] (- 2) = Ok [0; 1; 2]%nat ∧
  @top_word_ids numpy_ref [1; 1; 1] 2 = Ok [2; 1]%nat ∧
  ∃ u' v', [2; 1]%nat !! u' = Some 1%nat ∧ [2; 1]%nat !! v' = Some 2%nat ∧ (v' < u')%nat.
Proof.
  split; [exact numpy_ref_stable|]. split; [reflexivity|]. split; [reflexivity|].
  apply (@top_word_ids_ties_reversed numpy_ref [1; 1; 1] 2 [0; 1; 2]%nat
           [2; 1]%nat 0%nat 1%nat 1%nat 2%nat);
    [exact numpy_ref_stable|reflexivity|reflexivity|reflexivity|reflexivity|lia|reflexivity].
Defined.

(** C2, the claim as stated, fails: over the row [[1, 1, 1]] with
    [topn = 2] the terms [c] and [b] are returned, [c] first, and [a],
    the lowest id of the tie, is left out. *)
Lemma get_top_words_tie_counterexample :
  @get_top_words numpy_ref (example_model [[1; 1; 1]]) 2 =
    Ok [[(1, "c"); (1, "b")]]%string ∧
  @top_word_ids numpy_ref [1; 1; 1] 2 = Ok [2; 1]%nat ∧
  ¬ ties_prefer_lower_id [1; 1; 1] [2; 1]%nat.
Proof.
  split; [by vm_compute|]. split; [by vm_compute|].
  intros [Hord _].
  specialize (Hord 0%nat 1%nat 2%nat 1%nat eq_refl eq_refl). simpl in Hord. lia.
Qed.

Lemma top_word_ids_empty {np : Numpy} (topn : Z) :
  kth_fits (- topn) → top_word_ids [] topn = Ok [].
Proof.
  intros Hfit. unfold top_word_ids. rewrite (argpartition_empty _ Hfit), bind_Ok.
  assert (Hs : slice_from (@nil nat) (- topn) = []).
  { unfold slice_from. apply drop_nil. }
  rewrite Hs. simpl.
  assert (Ha : argsort [] = []).
  { apply Permutation_nil_r. rewrite argsort_perm. done. }
  by rewrite Ha.
Qed.

(** C3 (as amended).  With [topn] above the vocabulary size, within what
    the index type holds, nothing clamps [topn].  Over a vocabulary with a
    term and a matrix with a topic row, [get_top_words] raises the
    [ValueError] of the partition routine.  Over a vocabulary without
    terms the partition routine checks nothing and the call returns an
    empty list for every topic row. *)
Theorem get_top_words_beyond_vocabulary_raises {np : Numpy}
    (self : TopicModelResult) (topn : Z) :
  matrix_fits_vocabulary self →
  Z.of_nat (vocabulary_size self) < topn →
  kth_fits (- topn) →
  ((1 ≤ vocabulary_size self)%nat → dz_T self ≠ [] →
   get_top_words self topn = Raise ValueError) ∧
  (vocabulary_size self = 0%nat →
   get_top_words self topn = Ok ((fun _ => []) <$> dz_T self)).
Proof.
  intros [_ Hrows] Hn Hfit. split.
  - intros Hv Hne.
    destruct (dz_T self) as [|topic rest] eqn:Hdz; [done|].
    apply Forall_cons in Hrows as [Hlen _].
    apply (get_top_words_too_many self topn topic rest Hdz); [|done|by rewrite Hlen].
    intros ->. simpl in Hlen. lia.
  - intros Hv. unfold get_top_words. apply for_each_Ok.
    eapply Forall_impl; [exact Hrows|]. intros topic Hlen; cbv beta in *.
    rewrite Hv in Hlen. apply nil_length_inv in Hlen as ->.
    by rewrite (top_word_ids_empty topn Hfit).
Qed.

Lemma get_top_words_beyond_vocabulary_raises_witness :
  matrix_fits_vocabulary (example_model [[5; 7; 6]]) ∧
  Z.of_nat (vocabulary_size (example_model [[5; 7; 6]])) < 4 ∧
  kth_fits (- 4) ∧
  @get_top_words numpy_ref (example_model [[5; 7; 6]]) 4 = Raise ValueError ∧
  @get_top_words numpy_ref no_vocabulary_model 4 = Ok [[]].
Proof.
  assert (Hfit : matrix_fits_vocabulary (example_model [[5; 7; 6]])).
  { apply example_fits. repeat constructor. }
  assert (Hfit0 : matrix_fits_vocabulary no_vocabulary_model).
  { split; [|by repeat constructor]. intros i. split; [by intros [? ?]|].
    unfold vocabulary_size. simpl. rewrite map_size_empty. lia. }
  assert (Hk : kth_fits (- 4)) by compute_done.
  split; [exact Hfit|]. split; [vm_compute; reflexivity|]. split; [exact Hk|]. split.
  - apply (@get_top_words_beyond_vocabulary_raises numpy_ref
             (example_model [[5; 7; 6]]) 4 Hfit); [vm_compute; reflexivity|exact Hk| |].
    + vm_compute. lia.
    + discriminate.
  - apply (@get_top_words_beyond_vocabulary_raises numpy_ref
             no_vocabulary_model 4 Hfit0); [vm_compute; reflexivity|exact Hk|reflexivity].
Defined.

(** C3, the claim as stated, fails: with four words asked of a
    three-term vocabulary the call raises. *)
Lemma get_top_words_beyond_vocabulary_counterexample :
  ¬ ∃ top_words,
      @get_top_words numpy_ref (example_model [[5; 7; 6]]) 4 = Ok top_words.
Proof. intros [tw Htw]. vm_compute in Htw. discriminate. Qed.

(** ** Claims about the derived statistics *)

(** C4.  The claim: [term_topic_matrix()] returns the cached matrix of the
    corpus.  The code reads the attribute and returns nothing: whatever the
    corpus holds the call yields [None], as over the example corpus, whose
    cached matrix is [[1, 2, 3]]. *)
Theorem term_topic_matrix_returns_None :
  (∀ self : TopicModelResult,
     term_topic_matrix self =
       match corpus_term_topic_matrix (_corpus self) with
       | Some _ => Ok None
       | None => Raise AttributeError
       end) ∧
  corpus_term_topic_matrix (_corpus (example_model [])) = Some [[1; 2; 3]] ∧
  term_topic_matrix (example_model []) = Ok None.
Proof.
  split; [|done]. intros self. unfold term_topic_matrix.
  by destruct (corpus_term_topic_matrix (_corpus self)).
Qed.

(** Over a corpus with a document the rows of the table are the document
    ids, each with the length of its document's sequence. *)
Lemma doc_lengths_rows (self : TopicModelResult) :
  _corpus_docs (_corpus self) ≠ [] →
  _get_doc_lengths self =
    Ok ((fun '(id, doc) => (id, length doc)) <$> _corpus_docs (_corpus self)).
Proof.
  intros Hne. unfold _get_doc_lengths.
  set (pairs := (fun '(id, doc) => (id, length doc)) <$> _corpus_docs (_corpus self)).
  assert (Hp : unpack_zip_star pairs = Ok (pairs.*1, pairs.*2)).
  { unfold pairs. by destruct (_corpus_docs (_corpus self)). }
  rewrite Hp. simpl. unfold Series_indexed. by rewrite zip_fst_snd.
Qed.




Lemma counter_update_lookup (tf m : gmap term_id nat) (t : term_id) :
  default 0%nat (counter_update tf m !! t) =
    (default 0 (tf !! t) + default 0 (m !! t))%nat.
Proof.
  unfold counter_update. rewrite lookup_union_with.
  destruct (tf !! t), (m !! t); simpl; lia.
Qed.

Lemma foldl_counter_update_lookup (docs : list document) (tf : gmap term_id nat)
    (t : term_id) :
  default 0%nat (foldl (fun tf doc => counter_update tf (py_dict doc)) tf docs !! t) =
    (default 0 (tf !! t) +
     sum_list ((fun doc => default 0 (py_dict doc !! t)) <$> docs))%nat.
Proof.
  revert tf. induction docs as [|doc docs IH]; intros tf; simpl.
  - by rewrite Nat.add_0_r.
  - by rewrite IH, counter_update_lookup, Nat.add_assoc.
Qed.

(** C6 (as amended).  [_get_term_frequency()] passes once over the
    documents and adds, per term-id, the counts of the documents: the
    frequency of a term is the sum over the documents of its count there.
    Over the example corpus it is [{a: 3, b: 1, c: 3}]. *)
Theorem term_frequency_sums_counts :
  (∀ (self : TopicModelResult) (t : term_id),
     default 0%nat (_get_term_frequency self !! t) =
       sum_list ((fun doc => default 0%nat (py_dict doc !! t))
                   <$> corpus_iter (_corpus self))) ∧
  _get_term_frequency (example_model []) =
    {[ term_a := 3%nat; term_b := 1%nat; term_c := 3%nat ]}.
Proof.
  split; [|by vm_compute].
  intros self t. unfold _get_term_frequency.
  by rewrite foldl_counter_update_lookup, lookup_empty.
Qed.

(** C6, the claim as stated, fails in its example: the term [c] occurs
    three times in the corpus [[{a:2, b:1}, {a:1, c:3}]], not four. *)
Lemma term_frequency_counterexample :
  _get_term_frequency (example_model []) !! term_c = Some 3%nat ∧
  _get_term_frequency (example_model []) ≠
    {[ term_a := 3%nat; term_b := 1%nat; term_c := 4%nat ]}.
Proof.
  split; [by vm_compute|]. intros Heq.
  assert (H : _get_term_frequency (example_model []) !! term_c = Some 4%nat).
  { rewrite Heq. by vm_compute. }
  vm_compute in H. discriminate.
Qed.

(** C10.  Over a corpus without documents [_get_doc_lengths()] raises: the
    unpacking into two targets has nothing to unpack.  [_get_doc_data()]
    raises as well, with that error once the document-topic table has been
    returned. *)
Theorem doc_lengths_empty_corpus_raises (self : TopicModelResult) :
  _corpus_docs (_corpus self) = [] →
  _get_doc_lengths self = Raise ValueError ∧
  _get_doc_data self =
    match _get_doc_topic_dists self with
    | Ok _ => Raise ValueError
    | Raise e => Raise e
    end.
Proof.
  intros Hdocs.
  assert (Hl : _get_doc_lengths self = Raise ValueError).
  { unfold _get_doc_lengths. by rewrite Hdocs. }
  split; [done|]. unfold _get_doc_data. rewrite Hl.
  by destruct (_get_doc_topic_dists self).
Qed.

Lemma doc_lengths_empty_corpus_raises_witness :
  _corpus_docs (_corpus empty_corpus_model) = [] ∧
  _get_doc_lengths empty_corpus_model = Raise ValueError ∧
  _get_doc_data empty_corpus_model = Raise ValueError.
Proof.
  split; [reflexivity|].
  apply (doc_lengths_empty_corpus_raises empty_corpus_model). reflexivity.
Defined.

(** ** Tables *)

Lemma df_setitem_fresh {R C} `{EqDecision C} (df : DataFrame R C) (c : C)
    (col : list cell) :
  c ∉ (df_columns df).*1 →
  df_setitem df c col =
    {| df_index := df_index df; df_columns := df_columns df ++ [(c, col)] |}.
Proof. intros Hc. unfold df_setitem. by rewrite decide_False. Qed.

Lemma find_column_fresh {C} `{EqDecision C} (cols rest : list (C * list cell))
    (c : C) (col : list cell) :
  c ∉ cols.*1 →
  list_find (fun kv => kv.1 = c) (cols ++ (c, col) :: rest) =
    Some (length cols, (c, col)).
Proof.
  induction cols as [|[c' col'] cols IH]; simpl; intros Hc.
  - by rewrite decide_True.
  - apply not_elem_of_cons in Hc as [Hne Hc].
    rewrite decide_False by (simpl; congruence).
    by rewrite IH.
Qed.

Lemma df_getitem_fresh {R C} `{EqDecision C} (index : list R)
    (cols rest : list (C * list cell)) (c : C) (col : list cell) :
  c ∉ cols.*1 →
  df_getitem {| df_index := index; df_columns := cols ++ (c, col) :: rest |} c =
    Ok (zip index col).
Proof. intros Hc. unfold df_getitem. simpl. by rewrite find_column_fresh. Qed.

Lemma fst_imap_pair {A B} (g : nat → A → B) (l : list A) :
  (imap (fun i r => (r, g i r)) l).*1 = l.
Proof.
  revert g. induction l as [|x l IH]; intros g; simpl; [done|].
  f_equal. apply (IH (fun i => g (S i))).
Qed.

(** Transposition swaps the two axes. *)
Lemma df_T_axes {R C} (df : DataFrame R C) :
  df_index (df_T df) = (df_columns df).*1 ∧
  (df_columns (df_T df)).*1 = df_index df ∧
  shape (df_T df) = ((shape df).2, (shape df).1).
Proof.
  unfold df_T, shape. simpl. split; [done|]. split.
  - apply (fst_imap_pair (fun i _ => (fun col => default NaN (col.2 !! i)) <$> df_columns df)).
  - by rewrite length_fmap, length_imap.
Qed.

Lemma zip_lookup_aligned {R} (index : list R) (col : list cell) (i : nat) (r : R) (c : cell) :
  index !! i = Some r → col !! i = Some c → zip index col !! i = Some (r, c).
Proof. intros Hr Hc. apply lookup_zip_with_Some. by exists r, c. Qed.

Lemma align_dict_lookup {R} `{Countable R} (index : list R) (s : gmap R cell)
    (i : nat) (r : R) :
  index !! i = Some r → align_dict index s !! i = Some (default NaN (s !! r)).
Proof. intros Hr. unfold align_dict. by rewrite list_lookup_fmap, Hr. Qed.

Lemma align_dict_length {R} `{Countable R} (index : list R) (s : gmap R cell) :
  length (align_dict index s) = length index.
Proof. unfold align_dict. by rewrite length_fmap. Qed.

Lemma align_rows_by_label {R} `{Countable R} (index : list R) (s : list (R * cell)) :
  NoDup (s.*1) →
  ∃ col, align_rows index s = Ok col ∧
         length col = length index ∧
         ∀ i r, index !! i = Some r →
                col !! i = Some (default NaN ((list_to_map s : gmap R cell) !! r)).
Proof.
  intros Hnd. unfold align_rows. destruct (decide (s.*1 = index)) as [Heq|Hne].
  - exists (s.*2). split; [done|]. split; [by rewrite <-Heq, !length_fmap|].
    intros i r Hi. rewrite <-Heq in Hi. rewrite list_lookup_fmap in Hi.
    rewrite list_lookup_fmap.
    destruct (s !! i) as [[r' c]|] eqn:Hs; simpl in *; [|done].
    injection Hi as ->.
    rewrite (elem_of_list_to_map_1 s r c Hnd); [done|].
    by eapply list_elem_of_lookup_2.
  - rewrite decide_True by done. eexists. split; [done|].
    split; [by rewrite length_fmap|].
    intros i r Hi. by rewrite list_lookup_fmap, Hi.
Qed.

Lemma nan_columns_labels {C} (n : nat) (cols : list (C * list cell)) :
  (nan_columns n cols).*1 = cols.*1.
Proof. induction cols as [|col cols IH]; [done|]. simpl. f_equal. exact IH. Qed.

Lemma nan_columns_snoc {C} (n : nat) (cols : list (C * list cell)) (c : C)
    (col : list cell) :
  nan_columns n (cols ++ [(c, col)]) = nan_columns n cols ++ [(c, replicate n NaN)].
Proof. unfold nan_columns. by rewrite fmap_app. Qed.

Lemma dict_labels_nil {R V} `{Countable R} (s : gmap R V) : dict_labels s = [] → s = ∅.
Proof. unfold dict_labels. intros Hs%fmap_nil_inv. by apply map_to_list_empty_iff. Qed.

Lemma fresh_after_snoc {C} (cols : list (C * list cell)) (c c' : C) (col : list cell) :
  c ∉ cols.*1 → c ≠ c' → c ∉ (cols ++ [(c', col)]).*1.
Proof.
  intros Hc Hne. rewrite fmap_app. simpl. intros [?|Hin]%elem_of_app; [done|].
  by apply list_elem_of_singleton in Hin.
Qed.

(** A new column from a dict: the table keeps its rows and columns when
    it has rows, or when the dict is empty; a table without rows takes
    the labels of the dict, and its columns become [NaN]. *)
Lemma df_setitem_dict_shape {R C} `{Countable R} `{EqDecision C} (df : DataFrame R C)
    (c : C) (s : gmap R cell) :
  c ∉ (df_columns df).*1 →
  ∃ index cols,
    df_setitem_dict df c s =
      {| df_index := index; df_columns := cols ++ [(c, align_dict index s)] |} ∧
    cols.*1 = (df_columns df).*1 ∧
    ((index = df_index df ∧ cols = df_columns df ∧ (df_index df ≠ [] ∨ s = ∅)) ∨
     (df_index df = [] ∧ index ≠ [] ∧ cols = nan_columns (length index) (df_columns df))).
Proof.
  intros Hc. unfold df_setitem_dict, ensure_valid_index.
  destruct (df_index df) as [|r index] eqn:Hindex.
  - destruct (dict_labels s) as [|l labels] eqn:Hlabels.
    + exists [], (df_columns df). rewrite df_setitem_fresh by done. rewrite Hindex.
      split; [done|]. split; [done|]. left. split; [done|]. split; [done|].
      right. by apply dict_labels_nil.
    + exists (l :: labels), (nan_columns (length (l :: labels)) (df_columns df)).
      rewrite df_setitem_fresh by (cbn [df_columns]; by rewrite nan_columns_labels).
      split; [done|]. split; [apply nan_columns_labels|]. by right.
  - exists (r :: index), (df_columns df). rewrite df_setitem_fresh by done. rewrite Hindex.
    split; [done|]. split; [done|]. left. split; [done|]. split; [done|]. by left.
Qed.

(** A new column from a [Series] with distinct labels: the same, and the
    rows a table without rows takes are the labels of the [Series]. *)
Lemma df_setitem_rows_shape {R C} `{Countable R} `{EqDecision C} (df : DataFrame R C)
    (c : C) (s : list (R * cell)) :
  c ∉ (df_columns df).*1 →
  NoDup (s.*1) →
  s ≠ [] →
  ∃ index cols col,
    df_setitem_rows df c s =
      Ok {| df_index := index; df_columns := cols ++ [(c, col)] |} ∧
    cols.*1 = (df_columns df).*1 ∧
    length col = length index ∧
    (∀ i r, index !! i = Some r →
            col !! i = Some (default NaN ((list_to_map s : gmap R cell) !! r))) ∧
    (df_index df ≠ [] → index = df_index df ∧ cols = df_columns df) ∧
    (df_index df = [] →
       index = s.*1 ∧ cols = nan_columns (length s) (df_columns df)).
Proof.
  intros Hc Hnd Hne. unfold df_setitem_rows, ensure_valid_index.
  destruct (df_index df) as [|r index] eqn:Hindex.
  - destruct s as [|row s]; [done|]. cbn [fmap list_fmap df_index].
    destruct (align_rows_by_label (row.1 :: s.*1) (row :: s) Hnd)
      as (col & Hcol & Hlen & Hcells).
    rewrite Hcol, bind_Ok.
    rewrite df_setitem_fresh by (cbn [df_columns]; by rewrite nan_columns_labels).
    cbn [df_index df_columns].
    exists (row.1 :: s.*1), (nan_columns (length (row.1 :: s.*1)) (df_columns df)), col.
    split; [done|]. split; [apply nan_columns_labels|]. split; [done|].
    split; [done|]. split; [done|]. intros _. split; [done|].
    simpl. by rewrite length_fmap.
  - destruct (align_rows_by_label (r :: index) s Hnd) as (col & Hcol & Hlen & Hcells).
    rewrite Hindex, Hcol, bind_Ok, df_setitem_fresh by done. rewrite Hindex.
    exists (r :: index), (df_columns df), col. by repeat split.
Qed.

Lemma doc_length_labels (docs : list (doc_id * list pyobject)) :
  ((fun '(id, n) => (id, Num (Z.of_nat n))) <$>
     ((fun '(id, doc) => (id, length doc)) <$> docs)).*1 = docs.*1.
Proof. induction docs as [|[id doc] docs IH]; simpl; [done|]. f_equal. exact IH. Qed.

(** The table of [_get_term_data()]: the columns of the terms x topics
    table under their labels, then the frequencies and the words, each
    aligned on the term-ids of the rows.  A table with rows keeps them. *)
Lemma term_data_shape (self : TopicModelResult) (ttd : DataFrame term_id label) :
  _get_topic_term_dists self = Ok ttd →
  StrLabel "term_frequency" ∉ (df_columns ttd).*1 →
  StrLabel "term" ∉ (df_columns ttd).*1 →
  ∃ index cols tf vocab,
    _get_term_data self =
      Ok {| df_index := index;
            df_columns := cols ++ [(StrLabel "term_frequency", tf);
                                   (StrLabel "term", vocab)] |} ∧
    cols.*1 = (df_columns ttd).*1 ∧
    length tf = length index ∧
    length vocab = length index ∧
    (∀ i t, index !! i = Some t →
       tf !! i = Some (default NaN (((fun n => Num (Z.of_nat n)) <$>
                                       _get_term_frequency self) !! t)) ∧
       vocab !! i = Some (default NaN ((Str <$> _get_vocab self) !! t))) ∧
    (df_index ttd ≠ [] → index = df_index ttd ∧ cols = df_columns ttd).
Proof.
  intros Httd Htf Hterm.
  set (tfs := (fun n => Num (Z.of_nat n)) <$> _get_term_frequency self).
  set (words := Str <$> _get_vocab self).
  destruct (df_setitem_dict_shape ttd (StrLabel "term_frequency") tfs Htf)
    as (index1 & cols1 & Hdf1 & Hlabels1 & Hcase1).
  destruct (df_setitem_dict_shape
              {| df_index := index1;
                 df_columns := cols1 ++ [(StrLabel "term_frequency", align_dict index1 tfs)] |}
              (StrLabel "term") words)
    as (index2 & cols2 & Hdf2 & Hlabels2 & Hcase2).
  { cbn [df_columns]. apply fresh_after_snoc; [by rewrite Hlabels1|discriminate]. }
  assert (Hdata : _get_term_data self =
                    Ok {| df_index := index2;
                          df_columns := cols2 ++ [(StrLabel "term", align_dict index2 words)] |}).
  { unfold _get_term_data. rewrite Httd, bind_Ok. fold tfs words.
    cbv zeta. by rewrite Hdf1, Hdf2. }
  cbn [df_index df_columns] in Hcase2.
  destruct Hcase2 as [(-> & -> & _)|(-> & Hindex2 & ->)].
  - exists index1, cols1, (align_dict index1 tfs), (align_dict index1 words).
    split; [by rewrite Hdata, <-app_assoc|]. split; [done|].
    split; [apply align_dict_length|]. split; [apply align_dict_length|]. split.
    + intros i t Hi. split; by apply align_dict_lookup.
    + intros Hrows. by destruct Hcase1 as [(-> & -> & _)|(? & _)].
  - assert (Hnone : tfs = ∅).
    { destruct Hcase1 as [(Heq & _ & [Hrows|Hempty])|(_ & ? & _)];
        [by rewrite <-Heq in Hrows|done|done]. }
    exists index2, (nan_columns (length index2) cols1),
           (replicate (length index2) NaN), (align_dict index2 words).
    split; [by rewrite Hdata, nan_columns_snoc, <-app_assoc|].
    split; [by rewrite nan_columns_labels|].
    split; [apply length_replicate|]. split; [apply align_dict_length|]. split.
    + intros i t Hi. split; [|by apply align_dict_lookup].
      rewrite Hnone, lookup_empty. simpl. apply lookup_replicate_2.
      by eapply lookup_lt_Some.
    + intros Hrows. by destruct Hcase1 as [(Heq & _)|(? & _)]; [rewrite <-Heq in Hrows|].
Qed.

(** The table of [_get_doc_data()] over a corpus with distinct document
    ids: the columns of the documents x topics table under their labels,
    then the lengths, each row with the length of the document of its id.
    A table with rows keeps them; one without takes the document ids. *)
Lemma doc_data_shape (self : TopicModelResult) (dtd : DataFrame doc_id label) :
  _get_doc_topic_dists self = Ok dtd →
  _corpus_docs (_corpus self) ≠ [] →
  NoDup (_corpus_docs (_corpus self)).*1 →
  StrLabel "doc_length" ∉ (df_columns dtd).*1 →
  ∃ index cols col,
    _get_doc_data self =
      Ok {| df_index := index; df_columns := cols ++ [(StrLabel "doc_length", col)] |} ∧
    cols.*1 = (df_columns dtd).*1 ∧
    length col = length index ∧
    (∀ i id, index !! i = Some id →
       (∀ doc, (id, doc) ∈ _corpus_docs (_corpus self) →
               col !! i = Some (Num (Z.of_nat (length doc)))) ∧
       (id ∉ (_corpus_docs (_corpus self)).*1 → col !! i = Some NaN)) ∧
    (df_index dtd ≠ [] → index = df_index dtd ∧ cols = df_columns dtd) ∧
    (df_index dtd = [] →
       index = (_corpus_docs (_corpus self)).*1 ∧
       cols = nan_columns (length (_corpus_docs (_corpus self))) (df_columns dtd)).
Proof.
  intros Hdtd Hne Hnd Hfresh.
  set (s := (fun '(id, n) => (id, Num (Z.of_nat n))) <$>
              ((fun '(id, doc) => (id, length doc)) <$> _corpus_docs (_corpus self))).
  assert (Hs1 : s.*1 = (_corpus_docs (_corpus self)).*1) by apply doc_length_labels.
  assert (Hlen : length s = length (_corpus_docs (_corpus self))).
  { unfold s. by rewrite !length_fmap. }
  destruct (df_setitem_rows_shape dtd (StrLabel "doc_length") s Hfresh)
    as (index & cols & col & Hdf & Hlabels & Hcol & Hcells & Hrows & Hnorows).
  { by rewrite Hs1. }
  { intros Hs. apply Hne. apply (f_equal length) in Hs. rewrite Hlen in Hs.
    by apply length_zero_iff_nil. }
  exists index, cols, col. split; [|split; [done|split; [done|split; [|split]]]].
  - unfold _get_doc_data.
    rewrite Hdtd, (doc_lengths_rows self Hne), !bind_Ok. fold s. exact Hdf.
  - intros i id Hi. rewrite (Hcells i id Hi). split.
    + intros doc Hin.
      rewrite (elem_of_list_to_map_1 s id (Num (Z.of_nat (length doc)))); [done| |].
      * by rewrite Hs1.
      * unfold s.
        apply (list_elem_of_fmap_2 (fun '(id, doc) => (id, length doc))) in Hin.
        by apply (list_elem_of_fmap_2 (fun '(id, n) => (id, Num (Z.of_nat n)))) in Hin.
    + intros Hnot. rewrite <-Hs1 in Hnot.
      by rewrite (proj1 (not_elem_of_list_to_map s id) Hnot).
  - exact Hrows.
  - intros Hnone. destruct (Hnorows Hnone) as [-> ->]. by rewrite Hs1, Hlen.
Qed.


(** ** Claims about the payload *)

(** The payload read off the two merged tables. *)
Lemma to_py_lda_vis_of_tables (self : TopicModelResult)
    (terms : list term_id) (term_cols : list (label * list cell)) (tf vocab : list cell)
    (docs : list doc_id) (doc_cols : list (label * list cell)) (lengths : list cell) :
  _get_term_data self =
    Ok {| df_index := terms;
          df_columns := term_cols ++ [(StrLabel "term_frequency", tf);
                                      (StrLabel "term", vocab)] |} →
  _get_doc_data self =
    Ok {| df_index := docs;
          df_columns := doc_cols ++ [(StrLabel "doc_length", lengths)] |} →
  StrLabel "term_frequency" ∉ term_cols.*1 →
  StrLabel "term" ∉ term_cols.*1 →
  StrLabel "doc_length" ∉ doc_cols.*1 →
  to_py_lda_vis self =
    Ok [("vocab", TermSeries (zip terms vocab));
        ("term_frequency", TermSeries (zip terms tf));
        ("topic_term_dists",
         TopicTermFrame (df_T {| df_index := terms; df_columns := term_cols |}));
        ("doc_topic_dists", DocTopicFrame {| df_index := docs; df_columns := doc_cols |});
        ("doc_lengths", DocSeries (zip docs lengths))]%string.
Proof.
  intros Htd Hdd Htf Hterm Hlen.
  assert (Hvocab : df_getitem
                     {| df_index := terms;
                        df_columns := term_cols ++ [(StrLabel "term_frequency", tf);
                                                    (StrLabel "term", vocab)] |}
                     (StrLabel "term") = Ok (zip terms vocab)).
  { replace (term_cols ++ [(StrLabel "term_frequency", tf); (StrLabel "term", vocab)])
      with ((term_cols ++ [(StrLabel "term_frequency", tf)]) ++
            [(StrLabel "term", vocab)]) by (by rewrite <-app_assoc).
    apply df_getitem_fresh. by apply fresh_after_snoc. }
  assert (Hfreq : df_getitem
                    {| df_index := terms;
                       df_columns := term_cols ++ [(StrLabel "term_frequency", tf);
                                                   (StrLabel "term", vocab)] |}
                    (StrLabel "term_frequency") = Ok (zip terms tf)).
  { by apply df_getitem_fresh. }
  assert (Hlens : df_getitem
                    {| df_index := docs;
                       df_columns := doc_cols ++ [(StrLabel "doc_length", lengths)] |}
                    (StrLabel "doc_length") = Ok (zip docs lengths)).
  { by apply df_getitem_fresh. }
  unfold to_py_lda_vis.
  rewrite Hdd, bind_Ok, Htd, bind_Ok, Hvocab, bind_Ok, Hfreq, bind_Ok, Hlens, bind_Ok.
  unfold iloc_drop_last. cbn [df_index df_columns].
  rewrite (take_app_length' term_cols) by (rewrite length_app; simpl; lia).
  by rewrite (take_app_length' doc_cols) by (rewrite length_app; simpl; lia).
Qed.

(** C7 (as amended).  The payload has exactly the five fields [vocab],
    [term_frequency], [topic_term_dists], [doc_topic_dists] and
    [doc_lengths], in this order.  [topic_term_dists] is the transpose of
    a terms x topics table, so its rows are the topics and its columns the
    terms, and [doc_topic_dists] is a documents x topics table: each is
    the table the model returned when that table has a row, and has the
    column labels of that table in any case. *)
Theorem to_py_lda_vis_payload (self : TopicModelResult)
    (ttd : DataFrame term_id label) (dtd : DataFrame doc_id label) :
  _get_topic_term_dists self = Ok ttd →
  _get_doc_topic_dists self = Ok dtd →
  StrLabel "term_frequency" ∉ (df_columns ttd).*1 →
  StrLabel "term" ∉ (df_columns ttd).*1 →
  StrLabel "doc_length" ∉ (df_columns dtd).*1 →
  _corpus_docs (_corpus self) ≠ [] →
  NoDup (_corpus_docs (_corpus self)).*1 →
  ∃ vocab term_frequency doc_lengths term_topics doc_topics,
    to_py_lda_vis self =
      Ok [("vocab", TermSeries vocab);
          ("term_frequency", TermSeries term_frequency);
          ("topic_term_dists", TopicTermFrame (df_T term_topics));
          ("doc_topic_dists", DocTopicFrame doc_topics);
          ("doc_lengths", DocSeries doc_lengths)]%string ∧
    (df_index ttd ≠ [] → term_topics = ttd) ∧
    (df_index dtd ≠ [] → doc_topics = dtd) ∧
    (df_columns term_topics).*1 = (df_columns ttd).*1 ∧
    (df_columns doc_topics).*1 = (df_columns dtd).*1 ∧
    df_index (df_T term_topics) = (df_columns ttd).*1 ∧
    (df_columns (df_T term_topics)).*1 = df_index term_topics ∧
    shape (df_T term_topics) = ((shape term_topics).2, (shape term_topics).1).
Proof.
  intros Httd Hdtd Htf Hterm Hlen Hne Hnd.
  destruct (doc_data_shape self dtd Hdtd Hne Hnd Hlen)
    as (docs & doc_cols & lengths & Hdd & Hdoc_labels & _ & _ & Hdoc_rows & _).
  destruct (term_data_shape self ttd Httd Htf Hterm)
    as (terms & term_cols & tf & vocab & Htd & Hterm_labels & _ & _ & _ & Hterm_rows).
  exists (zip terms vocab), (zip terms tf), (zip docs lengths),
         {| df_index := terms; df_columns := term_cols |},
         {| df_index := docs; df_columns := doc_cols |}.
  split.
  { apply to_py_lda_vis_of_tables; [done|done|by rewrite Hterm_labels..|].
    by rewrite Hdoc_labels. }
  split. { intros Hrows. destruct (Hterm_rows Hrows) as [-> ->]. by destruct ttd. }
  split. { intros Hrows. destruct (Hdoc_rows Hrows) as [-> ->]. by destruct dtd. }
  split; [done|]. split; [done|].
  destruct (df_T_axes {| df_index := terms; df_columns := term_cols |})
    as (Hindex & Hcolumns & Hshape).
  split; [by rewrite Hindex|]. by split.
Qed.

Lemma to_py_lda_vis_payload_witness :
  _get_topic_term_dists (example_model []) =
    Ok {| df_index := [term_a; term_b; term_c];
          df_columns := [(IntLabel 0, [Num 1; Num 2; Num 3]);
                         (IntLabel 1, [Num 4; Num 5; Num 6])] |} ∧
  NoDup (_corpus_docs (_corpus (example_model []))).*1 ∧
  ∃ vocab term_frequency doc_lengths,
    to_py_lda_vis (example_model []) =
      Ok [("vocab", TermSeries vocab);
          ("term_frequency", TermSeries term_frequency);
          ("topic_term_dists",
           TopicTermFrame (df_T {| df_index := [term_a; term_b; term_c];
                                   df_columns := [(IntLabel 0, [Num 1; Num 2; Num 3]);
                                                  (IntLabel 1, [Num 4; Num 5; Num 6])] |}));
          ("doc_topic_dists",
           DocTopicFrame {| df_index := ["doc0"; "doc1"];
                            df_columns := [(IntLabel 0, [Num 1; Num 2]);
                                           (IntLabel 1, [Num 4; Num 5])] |});
          ("doc_lengths", DocSeries doc_lengths)]%string.
Proof.
  split; [reflexivity|]. split; [compute_done|].
  destruct (to_py_lda_vis_payload (example_model [])
              {| df_index := [term_a; term_b; term_c];
                 df_columns := [(IntLabel 0, [Num 1; Num 2; Num 3]);
                                (IntLabel 1, [Num 4; Num 5; Num 6])] |}
              {| df_index := ["doc0"; "doc1"]%string;
                 df_columns := [(IntLabel 0, [Num 1; Num 2]);
                                (IntLabel 1, [Num 4; Num 5])] |})
    as (vocab & tf & lens & term_topics & doc_topics & Hp & Hterms & Hdocs & _);
    [reflexivity|reflexivity|compute_done|compute_done|compute_done|discriminate
    |compute_done|].
  exists vocab, tf, lens.
  rewrite <-(Hterms ltac:(discriminate)), <-(Hdocs ltac:(discriminate)). exact Hp.
Defined.


(** C7, the claim as stated, fails twice over the example model, with its
    three terms and two topics: no field is called [vocabulary], and
    [topic_term_dists] has two rows and three columns, topics x terms. *)
Lemma to_py_lda_vis_counterexample :
  ∃ payload topic_term_dists,
    to_py_lda_vis (example_model []) = Ok payload ∧
    payload.*1 = ["vocab"; "term_frequency"; "topic_term_dists";
                  "doc_topic_dists"; "doc_lengths"]%string ∧
    payload.*1 ≠ ["vocabulary"; "term_frequency"; "topic_term_dists";
                  "doc_topic_dists"; "doc_lengths"]%string ∧
    payload !! 2%nat = Some ("topic_term_dists"%string, TopicTermFrame topic_term_dists) ∧
    df_index topic_term_dists = [IntLabel 0; IntLabel 1] ∧
    (df_columns topic_term_dists).*1 = [term_a; term_b; term_c] ∧
    shape topic_term_dists = (2%nat, 3%nat).
Proof.
  eexists. eexists. split; [vm_compute; reflexivity|].
  split; [reflexivity|]. split; [discriminate|].
  split; [reflexivity|]. by vm_compute.
Qed.

(** ** Claims about persistence *)

(** C8.  [load_model] is decided by the catalog at the location.  A name
    that is not in it gives the [NameError] whose message spells the name,
    and no constructor is called.  A name that is in it gives what the
    constructor registered under the record's class returns on the stored
    arguments, called once; a class without a registered constructor is a
    [KeyError]. *)
Theorem load_model_cases {Args Model : Type}
    (registered_models : gmap string (Args → result Model)) (w : World Args)
    (filename model_name : string) :
  load_model registered_models w filename model_name =
    match Persistor w filename !! model_name with
    | None =>
        ([], Raise (NameError ("Model name " +:+ model_name +:+
                               " has not yet been created.")))
    | Some data_dict =>
        match registered_models !! rec_class data_dict with
        | Some constructor =>
            ([Constructed (rec_class data_dict) (rec_saved_data data_dict)],
             constructor (rec_saved_data data_dict))
        | None => ([], Raise KeyError)
        end
    end.
Proof.
  unfold load_model, list_available_models, get_model_details.
  destruct (Persistor w filename !! model_name) as [data_dict|] eqn:Hrec.
  - rewrite decide_True by (apply elem_of_dom; eauto). done.
  - rewrite decide_False; [done|]. rewrite elem_of_dom, Hrec. by intros [? ?].
Qed.

(** A model saved and loaded again with a registry of one constructor, and
    a name nobody saved. *)
Example load_model_after_save :
  ∃ w, save (example_model []) "corpus.json" 2%nat
            {| persistors := ∅; files := ∅; saved_corpora := ∅ |} = Ok w ∧
       load_model ({[ "LDA"%string := fun ntopics : nat => Ok (ntopics, "built"%string) ]})
                  w "corpus.json" "LDA_2_topics" =
         ([Constructed "LDA" 2%nat], Ok (2%nat, "built"%string)) ∧
       load_model ({[ "LDA"%string := fun ntopics : nat => Ok (ntopics, "built"%string) ]})
                  w "corpus.json" "PLSA_2_topics" =
         ([], Raise (NameError "Model name PLSA_2_topics has not yet been created.")).
Proof. eexists. split; [reflexivity|]. split; by vm_compute. Qed.

(** C9.  When the model names itself, [save] stores under that name, in
    the persistor of the corpus, the record of the class name and the
    metadata, and saves the corpus under the file name. *)
Theorem save_persists_record_and_corpus {Args : Type} (self : TopicModelResult)
    (filename : string) (saved_data : Args) (w : World Args) (name : string) :
  get_model_name_with_parameters self = Ok name →
  ∃ w', save self filename saved_data w = Ok w' ∧
        persistor_catalog w' (persistor (_corpus self)) !! name =
          Some {| rec_class := class_name self; rec_saved_data := saved_data |} ∧
        saved_corpora w' !! filename = Some (_corpus self).
Proof.
  intros Hname. eexists. split.
  - unfold save. rewrite Hname. reflexivity.
  - split.
    + unfold corpus_save, store_model, persistor_catalog, _persistor. simpl.
      rewrite lookup_insert_eq. simpl. apply lookup_insert_eq.
    + unfold corpus_save. simpl. apply lookup_insert_eq.
Qed.

Lemma save_persists_record_and_corpus_witness :
  get_model_name_with_parameters (example_model []) = Ok "LDA_2_topics"%string ∧
  ∃ w', save (example_model []) "corpus.json" [("ntopics"%string, 2)]
             {| persistors := ∅; files := ∅; saved_corpora := ∅ |} = Ok w' ∧
        persistor_catalog w' 1%nat !! "LDA_2_topics"%string =
          Some {| rec_class := "LDA"; rec_saved_data := [("ntopics"%string, 2)] |} ∧
        saved_corpora w' !! "corpus.json"%string = Some example_corpus.
Proof.
  split; [reflexivity|].
  apply (save_persists_record_and_corpus (example_model []) "corpus.json"
           [("ntopics"%string, 2)] {| persistors := ∅; files := ∅; saved_corpora := ∅ |}
           "LDA_2_topics").
  reflexivity.
Defined.

(** * Further properties *)

(** ** get_top_words for every [topn] the partition accepts *)

Lemma get_top_words_top_rows_witness :
  matrix_fits_vocabulary (example_model [[5; 7; 6]; [3; 1; 2]]) ∧
  1 ≤ 2 ≤ Z.of_nat (vocabulary_size (example_model [[5; 7; 6]; [3; 1; 2]])) ∧
  ∃ top_words,
    @get_top_words numpy_ref (example_model [[5; 7; 6]; [3; 1; 2]]) 2 = Ok top_words ∧
    Forall2 (top_row (example_model [[5; 7; 6]; [3; 1; 2]]) 2)
            [[5; 7; 6]; [3; 1; 2]] top_words.
Proof.
  assert (Hfit : matrix_fits_vocabulary (example_model [[5; 7; 6]; [3; 1; 2]])).
  { apply example_fits. repeat constructor. }
  split; [exact Hfit|]. split; [vm_compute; split; discriminate|].
  apply (@get_top_words_top_rows numpy_ref (example_model [[5; 7; 6]; [3; 1; 2]]) 2 Hfit).
  vm_compute; split; discriminate.
Defined.

Lemma slice_from_norm_kth {A} (p : list A) (n : nat) (topn : Z) :
  length p = n →
  kth_in_bounds n (- topn) →
  slice_from p (- topn) = drop (norm_kth n (- topn)) p.
Proof.
  intros Hlen Hk. unfold slice_from, norm_kth, kth_in_bounds in *. rewrite Hlen.
  destruct (Z.ltb_spec (- topn) 0); f_equal; lia.
Qed.


Section top_words_any_topn.
Context {np : Numpy}.

(** Whenever the partition accepts [-topn], the call returns the positions
    from place [kth] on: distinct, in descending order of their cells, and
    no position left out has a larger cell than one returned. *)
Lemma top_word_ids_selected (topic : list Z) (topn : Z) :
  kth_in_bounds (length topic) (- topn) →
  ∃ ids, top_word_ids topic topn = Ok ids ∧
         length ids = (length topic - norm_kth (length topic) (- topn))%nat ∧
         NoDup ids ∧
         Forall (fun i => (i < length topic)%nat) ids ∧
         Sorted (flip Z.le) ((fun i => topic !!! i) <$> ids) ∧
         ∀ i j, i ∈ ids → (j < length topic)%nat → j ∉ ids →
                topic !!! j ≤ topic !!! i.
Proof.
  intros Hb.
  destruct (argpartition_in_bounds topic (- topn) Hb) as (p & Hp & Hperm & Hlo & Hhi).
  assert (Hlen : length p = length topic).
  { rewrite (Permutation_length Hperm). apply length_seq. }
  set (k := norm_kth (length topic) (- topn)) in *.
  destruct (top_word_ids_perm topic topn p Hp Hperm) as (ids & Hids & Hsl).
  rewrite (slice_from_norm_kth p (length topic) topn Hlen Hb) in Hsl. fold k in Hsl.
  assert (Hnd : NoDup p) by (rewrite Hperm; apply NoDup_seq).
  rewrite <-(take_drop k p) in Hnd. apply NoDup_app in Hnd as (_ & Hdisj & Hnd).
  exists ids. split; [done|]. split; [|split; [|split; [|split]]].
  - rewrite (Permutation_length Hsl), length_drop. lia.
  - by rewrite Hsl.
  - apply Forall_forall. intros i Hi. rewrite Hsl in Hi.
    apply subseteq_drop in Hi. rewrite Hperm in Hi. apply elem_of_seq in Hi. lia.
  - by eapply top_word_ids_sorted.
  - intros i j Hi Hj Hnot. rewrite Hsl in Hi, Hnot.
    assert (Hjp : j ∈ take k p ++ drop k p).
    { rewrite take_drop, Hperm. apply elem_of_seq. lia. }
    apply elem_of_app in Hjp as [Hjp|Hjp]; [|done].
    rewrite Forall_forall in Hlo, Hhi.
    etrans; [by apply Hlo|by apply Hhi].
Qed.

Lemma top_word_ids_out_of_bounds (topic : list Z) (topn : Z) :
  topic ≠ [] → kth_fits (- topn) →
  ¬ kth_in_bounds (length topic) (- topn) →
  top_word_ids topic topn = Raise ValueError.
Proof.
  intros Hne Hfit Hb. unfold top_word_ids. by rewrite argpartition_out_of_bounds.
Qed.

Lemma get_top_words_rows_selected (self : TopicModelResult) (topn : Z) :
  matrix_fits_vocabulary self →
  kth_in_bounds (vocabulary_size self) (- topn) →
  ∃ top_words,
    get_top_words self topn = Ok top_words ∧
    Forall2 (top_row self (Z.of_nat (vocabulary_size self -
                                     norm_kth (vocabulary_size self) (- topn))))
            (dz_T self) top_words.
Proof.
  intros Hfit Hb. unfold get_top_words. apply for_each_Forall2.
  pose proof Hfit as [Hvoc Hrows].
  eapply Forall_impl; [exact Hrows|]. intros topic Hlen; cbv beta in *.
  destruct (top_word_ids_selected topic topn)
    as (ids & -> & Hl & Hnd & Hlt & Hs & Htop); [by rewrite Hlen|]. simpl.
  rewrite (top_words_of_Ok self topic ids Hfit Hlen Hlt).
  eexists. split; [done|]. unfold top_row.
  rewrite <-list_fmap_compose. split.
  { rewrite length_fmap, Hl, Hlen. lia. }
  split; [done|].
  exists ids. split; [done|]. split.
  - apply Forall2_fmap_r, Forall_Forall2_diag.
    eapply Forall_impl; [exact Hlt|]. intros i Hi; cbv beta in *; simpl.
    split; [by apply list_lookup_lookup_total_lt|].
    destruct (proj2 (Hvoc i)) as [s Hs']; [lia|].
    by rewrite (lookup_total_correct _ _ _ Hs').
  - intros j w Hj Hnot Hw. apply list_elem_of_fmap in Hw as (i & -> & Hi).
    simpl. by apply Htop.
Qed.

(** X2.  A negative [topn] above minus the vocabulary size is no error:
    [argpartition(topic, -topn)[-topn:]] drops the [-topn] lightest terms,
    and each row is the top list of the remaining
    [vocabulary size + topn] terms. *)
Theorem get_top_words_negative_topn (self : TopicModelResult) (topn : Z) :
  matrix_fits_vocabulary self →
  - Z.of_nat (vocabulary_size self) < topn < 0 →
  ∃ top_words,
    get_top_words self topn = Ok top_words ∧
    Forall2 (top_row self (Z.of_nat (vocabulary_size self) + topn))
            (dz_T self) top_words.
Proof.
  intros Hfit Hn.
  destruct (get_top_words_rows_selected self topn Hfit) as (tw & Htw & Hrows).
  { unfold kth_in_bounds. lia. }
  exists tw. split; [done|].
  replace (Z.of_nat (vocabulary_size self) + topn)
    with (Z.of_nat (vocabulary_size self - norm_kth (vocabulary_size self) (- topn)));
    [done|].
  unfold norm_kth. destruct (Z.ltb_spec (- topn) 0); lia.
Qed.

(** X3.  On a matrix with a topic row, over a vocabulary with a term, the
    call succeeds for [-vocabulary size < topn <= vocabulary size]; for
    every other [topn] that the index type holds it raises the
    [ValueError] of the partition. *)
Theorem get_top_words_accepted_topn (self : TopicModelResult) (topn : Z) :
  matrix_fits_vocabulary self →
  dz_T self ≠ [] →
  (1 ≤ vocabulary_size self)%nat →
  (- Z.of_nat (vocabulary_size self) < topn ≤ Z.of_nat (vocabulary_size self) →
   ∃ top_words, get_top_words self topn = Ok top_words) ∧
  (¬ (- Z.of_nat (vocabulary_size self) < topn ≤ Z.of_nat (vocabulary_size self)) →
   kth_fits (- topn) →
   get_top_words self topn = Raise ValueError).
Proof.
  intros Hfit Hne Hv. split.
  - intros Hn.
    destruct (get_top_words_rows_selected self topn Hfit) as (tw & Htw & _);
      [unfold kth_in_bounds; lia|by exists tw].
  - intros Hn Hk. destruct Hfit as [_ Hrows].
    destruct (dz_T self) as [|topic rest] eqn:Hdz; [done|].
    apply Forall_cons in Hrows as [Hlen _].
    unfold get_top_words. rewrite Hdz. simpl.
    rewrite top_word_ids_out_of_bounds; [done| |done|].
    + intros ->. simpl in Hlen. lia.
    + rewrite Hlen. unfold kth_in_bounds. lia.
Qed.
End top_words_any_topn.

Lemma get_top_words_negative_topn_witness :
  matrix_fits_vocabulary (example_model [[5; 7; 6]; [3; 1; 2]]) ∧
  - Z.of_nat (vocabulary_size (example_model [[5; 7; 6]; [3; 1; 2]])) < -1 < 0 ∧
  @get_top_words numpy_ref (example_model [[5; 7; 6]; [3; 1; 2]]) (-1) =
    Ok [[(7, "b"); (6, "c")]; [(3, "a"); (2, "c")]]%string ∧
  ∃ top_words,
    @get_top_words numpy_ref (example_model [[5; 7; 6]; [3; 1; 2]]) (-1) = Ok top_words ∧
    Forall2 (top_row (example_model [[5; 7; 6]; [3; 1; 2]])
               (Z.of_nat (vocabulary_size (example_model [[5; 7; 6]; [3; 1; 2]])) + -1))
            [[5; 7; 6]; [3; 1; 2]] top_words.
Proof.
  assert (Hfit : matrix_fits_vocabulary (example_model [[5; 7; 6]; [3; 1; 2]])).
  { apply example_fits. repeat constructor. }
  split; [exact Hfit|]. split; [vm_compute; split; reflexivity|].
  split; [vm_compute; reflexivity|].
  apply (@get_top_words_negative_topn numpy_ref
           (example_model [[5; 7; 6]; [3; 1; 2]]) (-1) Hfit).
  vm_compute; split; reflexivity.
Defined.

Lemma get_top_words_accepted_topn_witness :
  matrix_fits_vocabulary (example_model [[5; 7; 6]]) ∧
  dz_T (example_model [[5; 7; 6]]) ≠ [] ∧
  Nat.le 1 (vocabulary_size (example_model [[5; 7; 6]])) ∧
  (∃ top_words, @get_top_words numpy_ref (example_model [[5; 7; 6]]) (-2) = Ok top_words) ∧
  @get_top_words numpy_ref (example_model [[5; 7; 6]]) (-3) = Raise ValueError.
Proof.
  assert (Hfit : matrix_fits_vocabulary (example_model [[5; 7; 6]])).
  { apply example_fits. repeat constructor. }
  assert (Hne : dz_T (example_model [[5; 7; 6]]) ≠ []) by discriminate.
  assert (Hv : Nat.le 1 (vocabulary_size (example_model [[5; 7; 6]]))).
  { rewrite example_vocabulary_size. lia. }
  split; [exact Hfit|]. split; [exact Hne|]. split; [exact Hv|]. split.
  - apply (@get_top_words_accepted_topn numpy_ref (example_model [[5; 7; 6]]) (-2)
             Hfit Hne Hv).
    vm_compute; split; [reflexivity|discriminate].
  - apply (@get_top_words_accepted_topn numpy_ref (example_model [[5; 7; 6]]) (-3)
             Hfit Hne Hv); [|compute_done].
    vm_compute. intros [H _]. discriminate.
Defined.

(** ** A vocabulary that lacks a selected term *)

Section missing_word.
Context {np : Numpy}.

Lemma top_words_of_cases (self : TopicModelResult) (topic : list Z) (ids : list nat) :
  Forall (fun i => (i < length topic)%nat) ids →
  (∃ row, top_words_of self topic ids = Ok row ∧
          Forall (fun i => is_Some (get_id2word_dict (_corpus self) !! i)) ids) ∨
  top_words_of self topic ids = Raise KeyError.
Proof.
  unfold top_words_of.
  set (f := fun word_id =>
              w ← or_raise IndexError (topic !! word_id);
              s ← or_raise KeyError (get_id2word_dict (_corpus self) !! word_id);
              Ok (w, s)).
  induction 1 as [|i ids Hi _ IH].
  - left. eexists. split; [done|constructor].
  - assert (Hf : f i = match get_id2word_dict (_corpus self) !! i with
                       | Some s => Ok (topic !!! i, s)
                       | None => Raise KeyError
                       end).
    { unfold f. rewrite (list_lookup_lookup_total_lt topic i Hi). simpl.
      by destruct (get_id2word_dict (_corpus self) !! i). }
    cbn [for_each]. rewrite Hf.
    destruct (get_id2word_dict (_corpus self) !! i) as [s|] eqn:Hs; [|by right].
    rewrite bind_Ok.
    destruct IH as [(row & Hrow & Hall)|Herr].
    + left. rewrite Hrow, bind_Ok.
      eexists. split; [done|]. constructor; [by rewrite Hs|done].
    + right. by rewrite Herr.
Qed.

(** X4.  When every row can be partitioned and some row selects a term-id
    the vocabulary has no word for, the call raises [KeyError]. *)
Theorem get_top_words_missing_word (self : TopicModelResult) (topn : Z) (i : nat) :
  Forall (fun topic => kth_in_bounds (length topic) (- topn)) (dz_T self) →
  get_id2word_dict (_corpus self) !! i = None →
  Exists (fun topic => ∃ ids, top_word_ids topic topn = Ok ids ∧ i ∈ ids) (dz_T self) →
  get_top_words self topn = Raise KeyError.
Proof.
  intros Hb Hi Hex. unfold get_top_words.
  induction Hb as [|topic rows Hk _ IH]; [by apply Exists_nil in Hex|].
  destruct (top_word_ids_selected topic topn Hk) as (ids & Hids & _ & _ & Hlt & _).
  simpl. rewrite Hids. simpl.
  destruct (top_words_of_cases self topic ids Hlt) as [(row & Hrow & Hall)|Herr];
    [|by rewrite Herr].
  rewrite Hrow. simpl.
  apply Exists_cons in Hex as [(ids' & Hids' & Hin)|Hex].
  - rewrite Hids in Hids'. injection Hids' as <-.
    rewrite Forall_forall in Hall. destruct (Hall i Hin) as [s Hs]. congruence.
  - by rewrite (IH Hex).
Qed.
End missing_word.

Lemma get_top_words_missing_word_witness :
  Forall (fun topic => kth_in_bounds (length topic) (- 1)) [[5; 7; 6; 9]] ∧
  get_id2word_dict example_corpus !! 3%nat = None ∧
  @top_word_ids numpy_ref [5; 7; 6; 9] 1 = Ok [3%nat] ∧
  @get_top_words numpy_ref (example_model [[5; 7; 6; 9]]) 1 = Raise KeyError.
Proof.
  assert (Hb : Forall (fun topic => kth_in_bounds (length topic) (- 1)) [[5; 7; 6; 9]]).
  { repeat constructor; vm_compute; discriminate. }
  split; [exact Hb|]. split; [reflexivity|]. split; [reflexivity|].
  apply (@get_top_words_missing_word numpy_ref (example_model [[5; 7; 6; 9]]) 1 3%nat Hb);
    [reflexivity|].
  apply Exists_cons_hd. exists [3%nat]. split; [reflexivity|]. apply list_elem_of_here.
Defined.

(** ** The second numpy meets the contract *)

#[global] Instance cell_le_desc_total a : Total (cell_le_desc a).
Proof. intros i j. unfold cell_le_desc. lia. Qed.

#[global] Instance cell_le_desc_trans a : Transitive (cell_le_desc a).
Proof. intros i j k. unfold cell_le_desc. lia. Qed.

Lemma argsort_desc_perm a : argsort_desc a ≡ₚ seq 0 (length a).
Proof. apply merge_sort_Permutation. Qed.

Lemma argsort_desc_sorted a : Sorted Z.le ((fun i => a !!! i) <$> argsort_desc a).
Proof.
  eapply Sorted_fmap; [|apply Sorted_merge_sort; apply _].
  intros i j. unfold cell_le_desc. lia.
Qed.

Lemma argpartition_desc_out_of_bounds a kth :
  a ≠ [] → kth_fits kth → ¬ kth_in_bounds (length a) kth →
  argpartition_desc a kth = Raise ValueError.
Proof.
  intros Ha _ Hk. unfold argpartition_desc. destruct a; [done|].
  by rewrite decide_False.
Qed.

Lemma argpartition_desc_empty kth : kth_fits kth → argpartition_desc [] kth = Ok [].
Proof. done. Qed.

Lemma argpartition_desc_positions a kth p :
  argpartition_desc a kth = Ok p → p ≡ₚ seq 0 (length a).
Proof.
  unfold argpartition_desc. destruct a as [|x a]; [by intros [= <-]|].
  case_decide; [|done]. intros [= <-]. apply argsort_desc_perm.
Qed.

Lemma argpartition_desc_in_bounds a kth :
  kth_in_bounds (length a) kth →
  ∃ p, argpartition_desc a kth = Ok p ∧
       p ≡ₚ seq 0 (length a) ∧
       let k := norm_kth (length a) kth in
       Forall (fun i => a !!! i ≤ a !!! (p !!! k)) (take k p) ∧
       Forall (fun j => a !!! (p !!! k) ≤ a !!! j) (drop k p).
Proof.
  intros Hk. exists (argsort_desc a).
  assert (Ha : argpartition_desc a kth = Ok (argsort_desc a)).
  { unfold argpartition_desc. destruct a as [|x a].
    - unfold kth_in_bounds in Hk. simpl in Hk. lia.
    - by rewrite decide_True. }
  split; [done|]. split; [apply argsort_desc_perm|]. simpl.
  set (p := argsort_desc a). set (k := norm_kth (length a) kth).
  assert (Hlen : length p = length a).
  { unfold p. rewrite (Permutation_length (argsort_desc_perm a)). apply length_seq. }
  assert (Hlt : (k < length p)%nat).
  { unfold k, norm_kth, kth_in_bounds in *. rewrite Hlen. case_match; lia. }
  destruct (lookup_lt_is_Some_2 p k Hlt) as [x Hx].
  rewrite (list_lookup_total_correct p k x Hx).
  assert (Hs : StronglySorted (cell_le_desc a) p).
  { apply StronglySorted_merge_sort; apply _. }
  rewrite <-(take_drop_middle p k x Hx) in Hs.
  apply StronglySorted_app in Hs as (Hcross & _ & Hr).
  apply StronglySorted_cons in Hr as [Hr _].
  assert (Hle : ∀ i j, cell_le_desc a i j → a !!! i ≤ a !!! j).
  { intros i j. unfold cell_le_desc. lia. }
  split.
  - apply Forall_forall. intros i Hi. apply Hle, Hcross; [done|].
    apply list_elem_of_here.
  - rewrite (drop_S p x k Hx). constructor; [lia|].
    eapply Forall_impl; [exact Hr|]. intros j. apply Hle.
Qed.

Definition numpy_desc : Numpy := {|
  argpartition := argpartition_desc;
  argsort := argsort_desc;
  argpartition_out_of_bounds := argpartition_desc_out_of_bounds;
  argpartition_empty := argpartition_desc_empty;
  argpartition_in_bounds := argpartition_desc_in_bounds;
  argpartition_positions := argpartition_desc_positions;
  argsort_perm := argsort_desc_perm;
  argsort_sorted := argsort_desc_sorted
|}.

(** The two implementations part on a tie: over [[1, 1, 1]] the reference
    one returns [c] then [b], the second one [b] then [a]. *)
Example get_top_words_tie_two_numpys :
  @get_top_words numpy_ref (example_model [[1; 1; 1]]) 2 =
    Ok [[(1, "c"); (1, "b")]]%string ∧
  @get_top_words numpy_desc (example_model [[1; 1; 1]]) 2 =
    Ok [[(1, "b"); (1, "a")]]%string.
Proof. split; by vm_compute. Qed.

(** ** Rows of pairwise distinct weights *)

#[global] Instance flip_Zle_trans : Transitive (flip Z.le).
Proof. intros x y z. unfold flip. lia. Qed.

#[global] Instance flip_Zle_antisymm : AntiSymm (=) (flip Z.le).
Proof. intros x y. unfold flip. lia. Qed.







(** ** termite_data *)

Lemma filter_topic_block (k t : nat) (row : list (Z * string)) :
  filter (fun r => topic r = t)
         ((fun '(weight, word) => {| topic := k; weight := weight; word := word |}) <$> row) =
    if decide (k = t)
    then (fun '(weight, word) => {| topic := k; weight := weight; word := word |}) <$> row
    else [].
Proof.
  induction row as [|[w s] row IH]; [simpl; by case_decide|].
  rewrite fmap_cons, filter_cons, IH. simpl. by repeat case_decide.
Qed.

Lemma pairs_of_block (k : nat) (row : list (Z * string)) :
  (fun r => (weight r, word r)) <$>
    ((fun '(weight, word) => {| topic := k; weight := weight; word := word |}) <$> row) = row.
Proof. induction row as [|[w s] row IH]; [done|]. by rewrite !fmap_cons, IH. Qed.

Lemma topics_of_block (k : nat) (row : list (Z * string)) :
  topic <$> ((fun '(weight, word) => {| topic := k; weight := weight; word := word |}) <$> row) =
    replicate (length row) k.
Proof. induction row as [|[w s] row IH]; [done|]. by rewrite !fmap_cons, IH. Qed.

(** The rows made of a table of top words, with topic indices from [k]. *)
Lemma termite_rows_shift (k : nat) (top_words : list (list (Z * string))) :
  imap ((fun topic_id topic =>
           (fun '(weight, word) =>
              {| topic := k + topic_id; weight := weight; word := word |}) <$> topic) ∘ S)
       top_words =
  imap (fun topic_id topic =>
          (fun '(weight, word) =>
             {| topic := S k + topic_id; weight := weight; word := word |}) <$> topic)
       top_words.
Proof.
  apply imap_ext. intros i row _. simpl.
  by replace (k + S i)%nat with (S (k + i)) by lia.
Qed.

Lemma join_cons {A} (l : list A) (ls : list (list A)) : mjoin (l :: ls) = l ++ mjoin ls.
Proof. reflexivity. Qed.

Lemma termite_rows_of_topic (k t : nat) (top_words : list (list (Z * string))) :
  (fun r => (weight r, word r)) <$>
    filter (fun r => topic r = t)
      (mjoin (imap (fun topic_id topic =>
                (fun '(weight, word) =>
                   {| topic := k + topic_id; weight := weight; word := word |}) <$> topic)
              top_words)) =
    if decide (k ≤ t)%nat then default [] (top_words !! (t - k)%nat) else [].
Proof.
  revert k. induction top_words as [|row tw IH]; intros k.
  - simpl. by case_decide.
  - rewrite imap_cons, termite_rows_shift, join_cons.
    rewrite filter_app, fmap_app, IH, Nat.add_0_r, filter_topic_block.
    destruct (decide (k = t)) as [->|Hne].
    + rewrite pairs_of_block, decide_False by lia.
      rewrite decide_True by lia. rewrite Nat.sub_diag. simpl. by rewrite app_nil_r.
    + simpl. destruct (decide (S k ≤ t)%nat) as [Hle|Hgt].
      * rewrite decide_True by lia.
        by replace (t - k)%nat with (S (t - S k)) by lia.
      * by rewrite decide_False by lia.
Qed.

Lemma termite_rows_topics (k n : nat) (top_words : list (list (Z * string))) :
  Forall (fun row => length row = n) top_words →
  topic <$>
    mjoin (imap (fun topic_id topic =>
              (fun '(weight, word) =>
                 {| topic := k + topic_id; weight := weight; word := word |}) <$> topic)
            top_words) =
    mjoin ((fun t => replicate n t) <$> seq k (length top_words)).
Proof.
  intros Hrows. revert k. induction Hrows as [|row tw Hrow _ IH]; intros k; [done|].
  rewrite imap_cons, termite_rows_shift, join_cons.
  rewrite fmap_app, IH, Nat.add_0_r, topics_of_block, Hrow. done.
Qed.

Lemma length_join_replicate (n : nat) (ts : list nat) :
  length (mjoin ((fun t => replicate n t) <$> ts)) = (length ts * n)%nat.
Proof.
  induction ts as [|t ts IH]; [done|].
  by rewrite fmap_cons, join_cons, length_app, length_replicate, IH.
Qed.

Section termite.
Context {np : Numpy}.

(** X6.  For [1 <= topn <= vocabulary size] the termite table has
    [topn] rows per topic: the topic column reads [topn] times 0, then
    [topn] times 1, and so on through the topics. *)
Theorem termite_data_topic_column (self : TopicModelResult) (topn : Z) :
  matrix_fits_vocabulary self →
  1 ≤ topn ≤ Z.of_nat (vocabulary_size self) →
  ∃ rows,
    termite_data self (Some topn) = Ok rows ∧
    length rows = (length (dz_T self) * Z.to_nat topn)%nat ∧
    topic <$> rows =
      mjoin ((fun t => replicate (Z.to_nat topn) t) <$> seq 0 (length (dz_T self))).
Proof.
  intros Hfit Hn.
  destruct (get_top_words_rows_selected self topn Hfit) as (tw & Htw & Hrows).
  { unfold kth_in_bounds. lia. }
  assert (Hlen : Forall (fun row => length row = Z.to_nat topn) tw).
  { apply Forall_forall. intros row Hrow.
    apply list_elem_of_lookup in Hrow as [t Ht].
    destruct (Forall2_lookup_r _ _ _ _ _ Hrows Ht) as (tp & _ & Htop & _).
    rewrite Htop. unfold norm_kth. destruct (Z.ltb_spec (- topn) 0); lia. }
  assert (Htopics := termite_rows_topics 0 (Z.to_nat topn) tw Hlen).
  unfold termite_data. simpl. rewrite Htw, bind_Ok.
  eexists. split; [done|].
  simpl in Htopics. rewrite (Forall2_length _ _ _ Hrows).
  split; [|exact Htopics].
  rewrite <-(length_fmap topic), Htopics, length_join_replicate. by rewrite length_seq.
Qed.

(** X7.  The termite table can be read back: the rows of topic [t], as
    (weight, word) pairs and in their order, are the list of topic [t] in
    the table of top words; a topic index beyond the table has no row. *)
Theorem termite_data_rows_of_topic (self : TopicModelResult) (topn : Z)
    (top_words : list (list (Z * string))) (t : nat) :
  get_top_words self topn = Ok top_words →
  ∃ rows,
    termite_data self (Some topn) = Ok rows ∧
    (fun r => (weight r, word r)) <$> filter (fun r => topic r = t) rows =
      default [] (top_words !! t).
Proof.
  intros Htw. unfold termite_data. simpl. rewrite Htw, bind_Ok.
  eexists. split; [done|].
  pose proof (termite_rows_of_topic 0 t top_words) as Hrows.
  rewrite decide_True, Nat.sub_0_r in Hrows by lia. exact Hrows.
Qed.
End termite.

Lemma termite_data_topic_column_witness :
  matrix_fits_vocabulary (example_model [[5; 7; 6]; [3; 1; 2]]) ∧
  ∃ rows,
    @termite_data numpy_ref (example_model [[5; 7; 6]; [3; 1; 2]]) (Some 2) = Ok rows ∧
    length rows = 4%nat ∧
    topic <$> rows = [0; 0; 1; 1]%nat.
Proof.
  assert (Hfit : matrix_fits_vocabulary (example_model [[5; 7; 6]; [3; 1; 2]])).
  { apply example_fits. repeat constructor. }
  split; [exact Hfit|].
  apply (@termite_data_topic_column numpy_ref (example_model [[5; 7; 6]; [3; 1; 2]]) 2 Hfit).
  vm_compute; split; discriminate.
Defined.

Lemma termite_data_rows_of_topic_witness :
  @get_top_words numpy_ref (example_model [[5; 7; 6]; [3; 1; 2]]) 2 =
    Ok [[(7, "b"); (6, "c")]; [(3, "a"); (2, "c")]]%string ∧
  ∃ rows,
    @termite_data numpy_ref (example_model [[5; 7; 6]; [3; 1; 2]]) (Some 2) = Ok rows ∧
    (fun r => (weight r, word r)) <$> filter (fun r => topic r = 1%nat) rows =
      [(3, "a"); (2, "c")]%string.
Proof.
  split; [by vm_compute|].
  apply (@termite_data_rows_of_topic numpy_ref (example_model [[5; 7; 6]; [3; 1; 2]]) 2
           [[(7, "b"); (6, "c")]; [(3, "a"); (2, "c")]]%string 1%nat).
  by vm_compute.
Defined.

(** ** Dicts, the vocabulary and the term frequencies *)

Lemma foldl_insert_list_to_map {K V} `{Countable K} (pairs : list (K * V))
    (acc : gmap K V) :
  foldl (fun m kv => <[kv.1 := kv.2]> m) acc pairs = list_to_map (reverse pairs) ∪ acc.
Proof.
  revert acc. induction pairs as [|[k v] pairs IH]; intros acc; simpl.
  - by rewrite (left_id_L ∅ (∪)).
  - rewrite IH, reverse_cons, list_to_map_app. simpl.
    rewrite <-(assoc_L (∪)). f_equal.
    by rewrite insert_empty, <-insert_union_singleton_l.
Qed.

Lemma py_dict_list_to_map {K V} `{Countable K} (pairs : list (K * V)) :
  py_dict pairs = list_to_map (reverse pairs).
Proof.
  unfold py_dict. rewrite foldl_insert_list_to_map. by rewrite (right_id_L ∅ (∪)).
Qed.

Lemma list_to_map_lookup_head {K V} `{Countable K} (pairs : list (K * V)) (k : K) :
  (list_to_map pairs : gmap K V) !! k = head ((filter (fun kv => kv.1 = k) pairs).*2).
Proof.
  induction pairs as [|[k' v] pairs IH]; [done|].
  rewrite list_to_map_cons, filter_cons. simpl.
  destruct (decide (k' = k)) as [->|Hne].
  - by rewrite lookup_insert_eq.
  - by rewrite lookup_insert_ne.
Qed.

(** [dict(doc)[t]] is the count of the last pair of [doc] that lists [t]. *)
Lemma py_dict_lookup_last (doc : document) (t : term_id) :
  py_dict doc !! t = last (counts_of t doc).
Proof.
  rewrite py_dict_list_to_map, list_to_map_lookup_head. unfold counts_of.
  by rewrite filter_reverse, fmap_reverse, head_reverse.
Qed.

Lemma py_dict_is_Some (doc : document) (t : term_id) :
  is_Some (py_dict doc !! t) ↔ t ∈ doc.*1.
Proof.
  rewrite py_dict_list_to_map.
  destruct (list_to_map (reverse doc) !! t) as [c|] eqn:Hl.
  - split; [intros _|by eauto].
    destruct (decide (t ∈ doc.*1)) as [|Hn]; [done|].
    assert ((list_to_map (reverse doc) : gmap term_id nat) !! t = None); [|congruence].
    apply not_elem_of_list_to_map. by rewrite fmap_reverse, elem_of_reverse.
  - split; [by intros [? ?]|]. intros Hin.
    apply not_elem_of_list_to_map in Hl. rewrite fmap_reverse, elem_of_reverse in Hl. done.
Qed.

Lemma py_dict_map_to_list {K V} `{Countable K} (m : gmap K V) :
  py_dict (map_to_list m) = m.
Proof.
  rewrite py_dict_list_to_map.
  rewrite <-(list_to_map_to_list m) at 2.
  apply list_to_map_proper.
  - rewrite fmap_reverse, reverse_Permutation. apply NoDup_fst_map_to_list.
  - apply reverse_Permutation.
Qed.

(** X8.  [_get_vocab()] is the dictionary of the corpus, entry for entry:
    the passage through [items()] and [dict(...)] loses and adds nothing. *)
Theorem get_vocab_is_the_dictionary (self : TopicModelResult) :
  _get_vocab self = _dict (_corpus self).
Proof. unfold _get_vocab. apply py_dict_map_to_list. Qed.

Lemma foldl_counter_update_is_Some (docs : list document) (tf : gmap term_id nat)
    (t : term_id) :
  is_Some (foldl (fun tf doc => counter_update tf (py_dict doc)) tf docs !! t) ↔
  is_Some (tf !! t) ∨ ∃ doc, doc ∈ docs ∧ t ∈ doc.*1.
Proof.
  revert tf. induction docs as [|doc docs IH]; intros tf; simpl.
  - split; [by left|]. intros [?|(doc & Hin & _)]; [done|].
    by apply elem_of_nil in Hin.
  - rewrite IH. unfold counter_update. split.
    + intros [Hs|(d & Hin & Ht)].
      * rewrite lookup_union_with in Hs.
        destruct (tf !! t) eqn:Htf; [left; by eauto|]. right.
        exists doc. split; [apply list_elem_of_here|]. apply py_dict_is_Some.
        destruct (py_dict doc !! t); simpl in Hs; [by eauto|by destruct Hs].
      * right. exists d. split; [by apply list_elem_of_further|done].
    + intros [Hs|(d & Hin & Ht)].
      * left. rewrite lookup_union_with. destruct Hs as [c ->].
        destruct (py_dict doc !! t); simpl; by eauto.
      * apply elem_of_cons in Hin as [->|Hin].
        -- left. apply py_dict_is_Some in Ht as [c Hc].
           rewrite lookup_union_with, Hc. destruct (tf !! t); simpl; by eauto.
        -- right. by eauto.
Qed.

(** X9.  A term-id has a frequency exactly when some document lists it: a
    term no document lists has no entry, not an entry of zero. *)
Theorem term_frequency_has_listed_terms (self : TopicModelResult) (t : term_id) :
  is_Some (_get_term_frequency self !! t) ↔
  ∃ doc, doc ∈ corpus_iter (_corpus self) ∧ t ∈ doc.*1.
Proof.
  unfold _get_term_frequency. rewrite foldl_counter_update_is_Some, lookup_empty.
  split; [|by right]. intros [[? ?]|?]; done.
Qed.

(** X10.  A document that lists a term more than once counts it with its
    last count only: the frequency of a term is the sum, over the
    documents, of the count in the last pair that lists it. *)
Theorem term_frequency_last_counts (self : TopicModelResult) (t : term_id) :
  default 0%nat (_get_term_frequency self !! t) =
    sum_list ((fun doc => default 0%nat (last (counts_of t doc)))
                <$> corpus_iter (_corpus self)).
Proof.
  unfold _get_term_frequency.
  rewrite foldl_counter_update_lookup, lookup_empty. simpl. f_equal.
  apply list_fmap_ext. intros i doc _. by rewrite py_dict_lookup_last.
Qed.

Lemma filter_none {A} (P : A → Prop) `{∀ x, Decision (P x)} (l : list A) :
  Forall (fun x => ¬ P x) l → filter P l = [].
Proof.
  induction 1 as [|x l Hx _ IH]; [done|].
  by rewrite filter_cons, decide_False, IH.
Qed.

Lemma counts_of_NoDup (t : term_id) (doc : document) :
  NoDup (doc.*1) → default 0%nat (last (counts_of t doc)) = sum_list (counts_of t doc).
Proof.
  unfold counts_of, document in *. induction doc as [|[k c] doc IH]; [done|].
  rewrite fmap_cons. intros [Hk Hnd]%NoDup_cons. rewrite filter_cons.
  destruct (decide ((k, c).1 = t)) as [Heq|Hne]; [|by apply IH].
  cbn [fst] in Heq. subst k.
  assert (Hnil : filter (fun kv : term_id * nat => kv.1 = t) doc = []).
  { apply filter_none, Forall_forall. intros [k' c'] Hin Heq. simpl in Heq.
    subst k'. apply Hk. by apply (list_elem_of_fmap_2 fst) in Hin. }
  rewrite Hnil. simpl. lia.
Qed.

(** X11.  When no document lists a term twice, the frequency of a term is
    the total of its counts over the documents. *)
Theorem term_frequency_total_counts (self : TopicModelResult) (t : term_id) :
  Forall (fun doc : document => NoDup (doc.*1)) (corpus_iter (_corpus self)) →
  default 0%nat (_get_term_frequency self !! t) =
    sum_list ((fun doc => sum_list (counts_of t doc)) <$> corpus_iter (_corpus self)).
Proof.
  intros Hnd. unfold _get_term_frequency.
  rewrite foldl_counter_update_lookup, lookup_empty. simpl. f_equal.
  apply Forall_fmap_ext. eapply Forall_impl; [exact Hnd|].
  intros doc Hdoc. simpl. by rewrite py_dict_lookup_last, counts_of_NoDup.
Qed.

Lemma term_frequency_total_counts_witness :
  Forall (fun doc : document => NoDup (doc.*1)) (corpus_iter (_corpus (example_model []))) ∧
  default 0%nat (_get_term_frequency (example_model []) !! term_a) = 3%nat.
Proof.
  assert (Hnd : Forall (fun doc : document => NoDup (doc.*1))
                       (corpus_iter (_corpus (example_model [])))).
  { repeat constructor; compute_done. }
  split; [exact Hnd|].
  exact (term_frequency_total_counts (example_model []) term_a Hnd).
Defined.

(** ** The merged tables, cell by cell *)

(** X13.  [_get_term_data()] keeps the topic columns of the terms x topics
    table under their labels, and the rows and cells too when the table
    has a row, and adds two columns aligned on the term-ids of the rows: a
    term gets its corpus frequency and its word, and [NaN] where no
    document lists it or the dictionary has no word for it. *)
Theorem term_data_cells (self : TopicModelResult) (ttd : DataFrame term_id label) :
  _get_topic_term_dists self = Ok ttd →
  StrLabel "term_frequency" ∉ (df_columns ttd).*1 →
  StrLabel "term" ∉ (df_columns ttd).*1 →
  ∃ term_data_df frequencies words,
    _get_term_data self = Ok term_data_df ∧
    (df_index ttd ≠ [] →
       df_index term_data_df = df_index ttd ∧
       take (length (df_columns ttd)) (df_columns term_data_df) = df_columns ttd) ∧
    (take (length (df_columns ttd)) (df_columns term_data_df)).*1 =
      (df_columns ttd).*1 ∧
    df_getitem term_data_df (StrLabel "term_frequency") = Ok frequencies ∧
    df_getitem term_data_df (StrLabel "term") = Ok words ∧
    ∀ i t, df_index term_data_df !! i = Some t →
      frequencies !! i =
        Some (t, match _get_term_frequency self !! t with
                 | Some n => Num (Z.of_nat n)
                 | None => NaN
                 end) ∧
      words !! i =
        Some (t, match _dict (_corpus self) !! t with
                 | Some w => Str w
                 | None => NaN
                 end).
Proof.
  intros Httd Htf Hterm.
  destruct (term_data_shape self ttd Httd Htf Hterm)
    as (terms & cols & tf & vocab & Htd & Hlabels & _ & _ & Hcells & Hrows).
  assert (Hcols : length (df_columns ttd) = length cols).
  { by rewrite <-(length_fmap fst cols), Hlabels, length_fmap. }
  exists {| df_index := terms;
            df_columns := cols ++ [(StrLabel "term_frequency", tf);
                                   (StrLabel "term", vocab)] |},
         (zip terms tf), (zip terms vocab).
  split; [done|]. cbn [df_index df_columns]. rewrite Hcols, take_app_length.
  split. { intros Hne. by destruct (Hrows Hne) as [-> ->]. }
  split; [done|].
  split; [apply df_getitem_fresh; by rewrite Hlabels|]. split.
  { replace (cols ++ [(StrLabel "term_frequency", tf); (StrLabel "term", vocab)])
      with ((cols ++ [(StrLabel "term_frequency", tf)]) ++ [(StrLabel "term", vocab)])
      by (by rewrite <-app_assoc).
    apply df_getitem_fresh, fresh_after_snoc; [by rewrite Hlabels|discriminate]. }
  intros i t Hi. destruct (Hcells i t Hi) as [Hfreq Hword]. split.
  - apply zip_lookup_aligned; [done|]. rewrite Hfreq, lookup_fmap.
    by destruct (_get_term_frequency self !! t).
  - apply zip_lookup_aligned; [done|]. rewrite Hword, lookup_fmap. unfold _get_vocab.
    rewrite py_dict_map_to_list.
    by destruct (_dict (_corpus self) !! t).
Qed.

Lemma term_data_cells_witness :
  _get_topic_term_dists (example_model []) =
    Ok {| df_index := [term_a; term_b; term_c];
          df_columns := [(IntLabel 0, [Num 1; Num 2; Num 3]);
                         (IntLabel 1, [Num 4; Num 5; Num 6])] |} ∧
  ∃ term_data_df frequencies words,
    _get_term_data (example_model []) = Ok term_data_df ∧
    df_index term_data_df = [term_a; term_b; term_c] ∧
    df_getitem term_data_df (StrLabel "term_frequency") = Ok frequencies ∧
    df_getitem term_data_df (StrLabel "term") = Ok words ∧
    frequencies !! 2%nat = Some (term_c, Num 3) ∧
    words !! 2%nat = Some (term_c, Str "c").
Proof.
  split; [reflexivity|].
  destruct (term_data_cells (example_model [])
              {| df_index := [term_a; term_b; term_c];
                 df_columns := [(IntLabel 0, [Num 1; Num 2; Num 3]);
                                (IntLabel 1, [Num 4; Num 5; Num 6])] |})
    as (df & fs & ws & Hdf & Hrows & _ & Hfs & Hws & Hcells);
    [reflexivity|compute_done|compute_done|].
  destruct (Hrows ltac:(discriminate)) as [Hindex _]. cbn [df_index] in Hindex.
  exists df, fs, ws. split; [exact Hdf|]. split; [exact Hindex|].
  split; [exact Hfs|]. split; [exact Hws|].
  apply (Hcells 2%nat term_c). by rewrite Hindex.
Defined.

(** X14.  With distinct document ids, [_get_doc_data()] gives each row of
    its table the length of the document of its own id, wherever that
    document stands in the corpus, and [NaN] to a row whose id the corpus
    does not have.  The rows are those of the documents x topics table
    when it has one, and the document ids of the corpus otherwise. *)
Theorem doc_data_lengths_by_id (self : TopicModelResult) (dtd : DataFrame doc_id label) :
  _get_doc_topic_dists self = Ok dtd →
  _corpus_docs (_corpus self) ≠ [] →
  NoDup (_corpus_docs (_corpus self)).*1 →
  StrLabel "doc_length" ∉ (df_columns dtd).*1 →
  ∃ doc_data_df lengths,
    _get_doc_data self = Ok doc_data_df ∧
    (df_index dtd ≠ [] → df_index doc_data_df = df_index dtd) ∧
    (df_index dtd = [] → df_index doc_data_df = (_corpus_docs (_corpus self)).*1) ∧
    df_getitem doc_data_df (StrLabel "doc_length") = Ok lengths ∧
    ∀ i id, df_index doc_data_df !! i = Some id →
      (∀ doc, (id, doc) ∈ _corpus_docs (_corpus self) →
              lengths !! i = Some (id, Num (Z.of_nat (length doc)))) ∧
      (id ∉ (_corpus_docs (_corpus self)).*1 → lengths !! i = Some (id, NaN)).
Proof.
  intros Hdtd Hne Hnd Hfresh.
  destruct (doc_data_shape self dtd Hdtd Hne Hnd Hfresh)
    as (docs & cols & col & Hdf & Hlabels & _ & Hcells & Hrows & Hnorows).
  exists {| df_index := docs; df_columns := cols ++ [(StrLabel "doc_length", col)] |},
         (zip docs col).
  split; [exact Hdf|]. cbn [df_index].
  split. { intros Hsome. by destruct (Hrows Hsome). }
  split. { intros Hnone. by destruct (Hnorows Hnone). }
  split; [apply df_getitem_fresh; by rewrite Hlabels|].
  intros i id Hi. destruct (Hcells i id Hi) as [Hin Hout]. split.
  - intros doc Hdoc. apply zip_lookup_aligned; [done|by apply Hin].
  - intros Hnot. apply zip_lookup_aligned; [done|by apply Hout].
Qed.

Lemma doc_data_lengths_by_id_witness :
  NoDup (_corpus_docs (_corpus reordered_model)).*1 ∧
  ∃ doc_data_df lengths,
    _get_doc_data reordered_model = Ok doc_data_df ∧
    df_index doc_data_df = ["doc1"; "doc0"; "doc9"]%string ∧
    df_getitem doc_data_df (StrLabel "doc_length") = Ok lengths ∧
    lengths !! 0%nat = Some ("doc1"%string, Num 2) ∧
    lengths !! 2%nat = Some ("doc9"%string, NaN).
Proof.
  assert (Hnd : NoDup (_corpus_docs (_corpus reordered_model)).*1) by compute_done.
  split; [exact Hnd|].
  destruct (doc_data_lengths_by_id reordered_model
              {| df_index := ["doc1"; "doc0"; "doc9"]%string;
                 df_columns := [(IntLabel 0, [Num 1; Num 2; Num 3]);
                                (IntLabel 1, [Num 4; Num 5; Num 6])] |})
    as (df & lens & Hdf & Hrows & _ & Hlens & Hcells);
    [reflexivity|discriminate|exact Hnd|compute_done|].
  pose proof (Hrows ltac:(discriminate)) as Hindex. cbn [df_index] in Hindex.
  exists df, lens. split; [exact Hdf|]. split; [exact Hindex|].
  split; [exact Hlens|]. split.
  - apply (proj1 (Hcells 0%nat "doc1"%string ltac:(by rewrite Hindex))
             [PyStr "a"; PyStr "c"]%string).
    apply list_elem_of_further, list_elem_of_here.
  - apply (proj2 (Hcells 2%nat "doc9"%string ltac:(by rewrite Hindex))). compute_done.
Defined.

(** X15.  The fields of the payload are aligned: the vocabulary, the term
    frequencies and the columns of [topic_term_dists] carry the same
    term-ids in the same order, and the document lengths and the rows of
    [doc_topic_dists] the same document ids in the same order.  The
    term-ids are the rows of the terms x topics table when it has one;
    the document ids are the rows of the documents x topics table when it
    has one, and those of the corpus otherwise. *)
Theorem to_py_lda_vis_aligned (self : TopicModelResult)
    (ttd : DataFrame term_id label) (dtd : DataFrame doc_id label) :
  _get_topic_term_dists self = Ok ttd →
  _get_doc_topic_dists self = Ok dtd →
  StrLabel "term_frequency" ∉ (df_columns ttd).*1 →
  StrLabel "term" ∉ (df_columns ttd).*1 →
  StrLabel "doc_length" ∉ (df_columns dtd).*1 →
  _corpus_docs (_corpus self) ≠ [] →
  NoDup (_corpus_docs (_corpus self)).*1 →
  ∃ terms docs vocab term_frequency topic_term_dists doc_topic_dists doc_lengths,
    to_py_lda_vis self =
      Ok [("vocab", TermSeries vocab);
          ("term_frequency", TermSeries term_frequency);
          ("topic_term_dists", TopicTermFrame topic_term_dists);
          ("doc_topic_dists", DocTopicFrame doc_topic_dists);
          ("doc_lengths", DocSeries doc_lengths)]%string ∧
    vocab.*1 = terms ∧
    term_frequency.*1 = terms ∧
    (df_columns topic_term_dists).*1 = terms ∧
    df_index doc_topic_dists = docs ∧
    doc_lengths.*1 = docs ∧
    (df_index ttd ≠ [] → terms = df_index ttd) ∧
    (df_index dtd ≠ [] → docs = df_index dtd) ∧
    (df_index dtd = [] → docs = (_corpus_docs (_corpus self)).*1).
Proof.
  intros Httd Hdtd Htf Hterm Hlen Hne Hnd.
  destruct (doc_data_shape self dtd Hdtd Hne Hnd Hlen)
    as (docs & doc_cols & lengths & Hdd & Hdoc_labels & Hlengths & _ & Hdoc_rows & Hno_rows).
  destruct (term_data_shape self ttd Httd Htf Hterm)
    as (terms & term_cols & tf & vocab & Htd & Hterm_labels & Htf_len & Hvocab_len
        & _ & Hterm_rows).
  exists terms, docs. do 5 eexists. split.
  { apply (to_py_lda_vis_of_tables self terms term_cols tf vocab docs doc_cols lengths);
      [done|done|by rewrite Hterm_labels..|by rewrite Hdoc_labels]. }
  split; [by apply fst_zip; rewrite Hvocab_len|].
  split; [by apply fst_zip; rewrite Htf_len|].
  split; [apply (df_T_axes {| df_index := terms; df_columns := term_cols |})|].
  split; [done|]. split; [by apply fst_zip; rewrite Hlengths|].
  split. { intros Hsome. by destruct (Hterm_rows Hsome). }
  split. { intros Hsome. by destruct (Hdoc_rows Hsome). }
  intros Hnone. by destruct (Hno_rows Hnone).
Qed.

Lemma to_py_lda_vis_aligned_witness :
  NoDup (_corpus_docs (_corpus reordered_model)).*1 ∧
  ∃ vocab term_frequency topic_term_dists doc_topic_dists doc_lengths,
    to_py_lda_vis reordered_model =
      Ok [("vocab", TermSeries vocab);
          ("term_frequency", TermSeries term_frequency);
          ("topic_term_dists", TopicTermFrame topic_term_dists);
          ("doc_topic_dists", DocTopicFrame doc_topic_dists);
          ("doc_lengths", DocSeries doc_lengths)]%string ∧
    vocab.*1 = [term_a; term_b; term_c] ∧
    term_frequency.*1 = [term_a; term_b; term_c] ∧
    (df_columns topic_term_dists).*1 = [term_a; term_b; term_c] ∧
    df_index doc_topic_dists = ["doc1"; "doc0"; "doc9"]%string ∧
    doc_lengths.*1 = ["doc1"; "doc0"; "doc9"]%string.
Proof.
  assert (Hnd : NoDup (_corpus_docs (_corpus reordered_model)).*1) by compute_done.
  split; [exact Hnd|].
  destruct (to_py_lda_vis_aligned reordered_model
              {| df_index := [term_a; term_b; term_c];
                 df_columns := [(IntLabel 0, [Num 1; Num 2; Num 3]);
                                (IntLabel 1, [Num 4; Num 5; Num 6])] |}
              {| df_index := ["doc1"; "doc0"; "doc9"]%string;
                 df_columns := [(IntLabel 0, [Num 1; Num 2; Num 3]);
                                (IntLabel 1, [Num 4; Num 5; Num 6])] |})
    as (terms & docs & vocab & tf & ttd & dtd & lens & Hp & Hv & Hf & Hc & Hd & Hl
        & Hterms & Hdocs & _);
    [reflexivity|reflexivity|compute_done|compute_done|compute_done|discriminate
    |exact Hnd|].
  pose proof (Hterms ltac:(discriminate)) as Eterms. cbn [df_index] in Eterms.
  pose proof (Hdocs ltac:(discriminate)) as Edocs. cbn [df_index] in Edocs.
  exists vocab, tf, ttd, dtd, lens. rewrite <-Eterms, <-Edocs. by repeat split.
Defined.


(** X19.  A documents x topics table without rows does not stay so.  Over
    a corpus with documents of distinct ids, [_get_doc_data()] returns a
    table whose rows are the document ids of the corpus in its order, whose
    topic columns keep their labels and hold [NaN] in every row, and whose
    last column holds the length of each document. *)
Theorem doc_data_without_rows (self : TopicModelResult) (dtd : DataFrame doc_id label) :
  _get_doc_topic_dists self = Ok dtd →
  df_index dtd = [] →
  _corpus_docs (_corpus self) ≠ [] →
  NoDup (_corpus_docs (_corpus self)).*1 →
  StrLabel "doc_length" ∉ (df_columns dtd).*1 →
  ∃ lengths,
    _get_doc_data self =
      Ok {| df_index := (_corpus_docs (_corpus self)).*1;
            df_columns :=
              nan_columns (length (_corpus_docs (_corpus self))) (df_columns dtd) ++
              [(StrLabel "doc_length", lengths)] |} ∧
    length lengths = length (_corpus_docs (_corpus self)) ∧
    ∀ i id doc, _corpus_docs (_corpus self) !! i = Some (id, doc) →
                lengths !! i = Some (Num (Z.of_nat (length doc))).
Proof.
  intros Hdtd Hnone Hne Hnd Hfresh.
  destruct (doc_data_shape self dtd Hdtd Hne Hnd Hfresh)
    as (docs & cols & col & Hdf & _ & Hlen & Hcells & _ & Hnorows).
  destruct (Hnorows Hnone) as [-> ->].
  exists col. split; [exact Hdf|]. split; [by rewrite Hlen, length_fmap|].
  intros i id doc Hi.
  apply (proj1 (Hcells i id ltac:(by rewrite list_lookup_fmap, Hi)) doc).
  by eapply list_elem_of_lookup_2.
Qed.

Lemma doc_data_without_rows_witness :
  _get_doc_topic_dists rowless_model =
    Ok {| df_index := []; df_columns := [(IntLabel 0, []); (IntLabel 1, [])] |} ∧
  ∃ lengths,
    _get_doc_data rowless_model =
      Ok {| df_index := ["doc0"; "doc1"]%string;
            df_columns := [(IntLabel 0, [NaN; NaN]); (IntLabel 1, [NaN; NaN]);
                           (StrLabel "doc_length", lengths)] |} ∧
    lengths !! 1%nat = Some (Num 4).
Proof.
  split; [reflexivity|].
  destruct (doc_data_without_rows rowless_model
              {| df_index := []; df_columns := [(IntLabel 0, []); (IntLabel 1, [])] |})
    as (lengths & Hdf & _ & Hcells);
    [reflexivity|reflexivity|discriminate|compute_done|compute_done|].
  exists lengths. split; [exact Hdf|].
  exact (Hcells 1%nat "doc1"%string
           [PyStr "a"; PyStr "c"; PyStr "c"; PyStr "c"]%string eq_refl).
Defined.

(** ** Saving, then loading *)

Section save_load.
Context {Args Model : Type}.

Lemma load_model_found (registered_models : gmap string (Args → result Model))
    (w : World Args) (filename model_name : string) (data_dict : ModelRecord Args)
    (constructor : Args → result Model) :
  Persistor w filename !! model_name = Some data_dict →
  registered_models !! rec_class data_dict = Some constructor →
  load_model registered_models w filename model_name =
    ([Constructed (rec_class data_dict) (rec_saved_data data_dict)],
     constructor (rec_saved_data data_dict)).
Proof.
  intros Hrec Hreg. unfold load_model, list_available_models, get_model_details.
  rewrite decide_True by (apply elem_of_dom; eauto).
  rewrite Hrec. simpl. by rewrite Hreg.
Qed.

(** After [save] the persistor object of the corpus holds what it held,
    with the record of the model under its name, and the file holds the
    same catalog. *)
Lemma catalogs_after_save (self : TopicModelResult) (filename : string)
    (saved_data : Args) (w w' : World Args) (name : string) :
  get_model_name_with_parameters self = Ok name →
  save self filename saved_data w = Ok w' →
  persistor_catalog w' (persistor (_corpus self)) =
    <[name := {| rec_class := class_name self; rec_saved_data := saved_data |}]>
      (persistor_catalog w (persistor (_corpus self))) ∧
  Persistor w' filename = persistor_catalog w' (persistor (_corpus self)).
Proof.
  intros Hname Hsave. unfold save in Hsave. rewrite Hname, bind_Ok in Hsave.
  injection Hsave as <-.
  unfold corpus_save, store_model, Persistor, persistor_catalog, _persistor. simpl.
  by rewrite !lookup_insert_eq.
Qed.

(** X16.  A model saved can be loaded: after [save(filename, saved_data)],
    [load_model] on the same file name and under the model's name calls
    the constructor registered for the class of the model, once, on the
    metadata that was saved, whatever the persistor and the file held
    before. *)
Theorem load_model_after_saving (registered_models : gmap string (Args → result Model))
    (self : TopicModelResult) (filename : string) (saved_data : Args)
    (w : World Args) (name : string) (constructor : Args → result Model) :
  get_model_name_with_parameters self = Ok name →
  registered_models !! class_name self = Some constructor →
  ∃ w', save self filename saved_data w = Ok w' ∧
        load_model registered_models w' filename name =
          ([Constructed (class_name self) saved_data], constructor saved_data).
Proof.
  intros Hname Hreg.
  assert (Hsave : ∃ w', save self filename saved_data w = Ok w').
  { unfold save. rewrite Hname. by eexists. }
  destruct Hsave as [w' Hsave]. exists w'. split; [done|].
  destruct (catalogs_after_save self filename saved_data w w' name Hname Hsave)
    as [Hobj Hfile].
  apply (load_model_found registered_models w' _ _
           {| rec_class := class_name self; rec_saved_data := saved_data |});
    [|done].
  rewrite Hfile, Hobj. apply lookup_insert_eq.
Qed.

(** X18.  After [save] the catalog of the corpus's persistor lists the
    names it listed before and the name of the model, and the corpus files
    saved before under other names are still there. *)
Theorem save_extends_catalog (self : TopicModelResult) (filename : string)
    (saved_data : Args) (w w' : World Args) (name : string) :
  get_model_name_with_parameters self = Ok name →
  save self filename saved_data w = Ok w' →
  list_available_models (persistor_catalog w' (persistor (_corpus self))) =
    {[name]} ∪ list_available_models (persistor_catalog w (persistor (_corpus self))) ∧
  ∀ other, other ≠ filename → saved_corpora w' !! other = saved_corpora w !! other.
Proof.
  intros Hname Hsave. split.
  - rewrite (proj1 (catalogs_after_save self filename saved_data w w' name Hname Hsave)).
    unfold list_available_models. apply dom_insert_L.
  - intros other Hother. unfold save in Hsave. rewrite Hname, bind_Ok in Hsave.
    injection Hsave as <-. unfold corpus_save. simpl. by rewrite lookup_insert_ne.
Qed.
End save_load.

Lemma load_model_after_saving_witness :
  get_model_name_with_parameters (example_model []) = Ok "LDA_2_topics"%string ∧
  ∃ w', save (example_model []) "corpus.json" 2%nat example_world = Ok w' ∧
        load_model example_registry w' "corpus.json" "LDA_2_topics" =
          ([Constructed "LDA" 2%nat], Ok ("LDA"%string, 2%nat)).
Proof.
  split; [reflexivity|].
  apply (load_model_after_saving example_registry (example_model []) "corpus.json"
           2%nat example_world "LDA_2_topics"
           (fun ntopics => Ok ("LDA"%string, ntopics)));
    [reflexivity|by vm_compute].
Defined.

Lemma save_extends_catalog_witness :
  save (example_model []) "corpus.json" 2%nat example_world = Ok example_world_saved ∧
  list_available_models (persistor_catalog example_world_saved 1%nat) =
    {["LDA_2_topics"%string]} ∪
      list_available_models (persistor_catalog example_world 1%nat).
Proof.
  split; [reflexivity|].
  apply (save_extends_catalog (example_model []) "corpus.json" 2%nat
           example_world example_world_saved "LDA_2_topics");
    reflexivity.
Defined.
